(** * Weather dashboard: presentation mapping, fetch/classification and proxy

    A shallow embedding of [src/components/WeatherDashboard.tsx] and of
    [api/weather.js].  The component file is present in two revisions;
    where they differ the definitions take a [revision] argument:
    [Rev1] is the first one (direct call, mixed-content warning, background
    gradient), [Rev2] the second (loopback test and proxy). *)

From Stdlib Require Import ZArith Ascii String List Bool Lia Sorted.
From stdpp Require Import gmap strings.
Import ListNotations.

Local Open Scope Z_scope.

Inductive revision := Rev1 | Rev2.

(** ** JavaScript strings

    Strings are [string], read as the UTF-8 encoding of the JavaScript
    string.  The string operations the program uses are written out on
    that representation.  A JavaScript string with a lone surrogate has
    no UTF-8 encoding: the model speaks of the other strings only, the
    well-formed ones, on which [encodeURIComponent] does not throw. *)
Module Js.

Definition code (c : ascii) : N := N_of_ascii c.

(** [String.prototype.toLowerCase] on the letters [A]..[Z]; bytes of
    multi-byte characters are left alone.  (The only characters outside
    ASCII whose lower case contains an ASCII letter are U+212A, which
    gives [k], and U+0130, which gives [i] followed by U+0307; none of the
    keywords searched below contains [k] or ends in [i].) *)
Definition lower_char (c : ascii) : ascii :=
  if ((65 <=? code c) && (code c <=? 90))%N
  then ascii_of_N (code c + 32) else c.

Fixpoint toLowerCase (s : string) : string :=
  match s with
  | EmptyString => EmptyString
  | String c r => String (lower_char c) (toLowerCase r)
  end.

(** [hay.includes(needle)]: [needle] is a prefix of some suffix of [hay]. *)
Fixpoint includes (hay needle : string) : bool :=
  String.prefix needle hay ||
  match hay with
  | EmptyString => false
  | String _ r => includes r needle
  end.

(** White space and line terminators of ECMAScript ([WhiteSpace] and
    [LineTerminator]), as UTF-8 byte sequences: TAB, LF, VT, FF, CR, SP,
    U+00A0, U+1680, U+2000..U+200A, U+2028, U+2029, U+202F, U+205F,
    U+3000, U+FEFF. *)
Definition bytes (l : list N) : string :=
  fold_right (fun n s => String (ascii_of_N n) s) EmptyString l.

Definition white_space : list string :=
  map bytes
    ([ [9]; [10]; [11]; [12]; [13]; [32]; [194; 160]; [225; 154; 128] ]
     ++ map (fun b => [226; 128; b])
            [128; 129; 130; 131; 132; 133; 134; 135; 136; 137; 138;
             168; 169; 175]
     ++ [ [226; 129; 159]; [227; 128; 128]; [239; 187; 191] ])%N.

Fixpoint drop (n : nat) (s : string) : string :=
  match n, s with
  | S n', String _ r => drop n' r
  | _, _ => s
  end.

Fixpoint rev_acc (s acc : string) : string :=
  match s with
  | EmptyString => acc
  | String c r => rev_acc r (String c acc)
  end.

Definition rev (s : string) : string := rev_acc s EmptyString.

(** Removes one leading white-space character, if there is one. *)
Definition strip1 (ws : list string) (s : string) : option string :=
  match find (fun w => String.prefix w s) ws with
  | Some w => Some (drop (String.length w) s)
  | None => None
  end.

Fixpoint strip (ws : list string) (fuel : nat) (s : string) : string :=
  match fuel with
  | O => s
  | S fuel' =>
      match strip1 ws s with
      | Some r => strip ws fuel' r
      | None => s
      end
  end.

Definition trimStart (s : string) : string :=
  strip white_space (String.length s) s.

Definition trimEnd (s : string) : string :=
  rev (strip (map rev white_space) (String.length s) (rev s)).

(** [String.prototype.trim]. *)
Definition trim (s : string) : string := trimEnd (trimStart s).

(** A string is falsy exactly when it is empty. *)
Definition nonempty (s : string) : bool :=
  match s with EmptyString => false | String _ _ => true end.

Definition hex_digit (n : N) : ascii :=
  if (n <? 10)%N then ascii_of_N (48 + n) else ascii_of_N (55 + n).

(** Characters [encodeURIComponent] leaves as they are:
    [A-Z a-z 0-9 - _ . ! ~ * ' ( )]. *)
Definition uri_unreserved (c : ascii) : bool :=
  let n := code c in
  (((65 <=? n) && (n <=? 90)) || ((97 <=? n) && (n <=? 122))
   || ((48 <=? n) && (n <=? 57))
   || existsb (N.eqb n) [45; 95; 46; 33; 126; 42; 39; 40; 41])%N.

(** [encodeURIComponent]: every other byte of the UTF-8 encoding becomes
    [%XX] with upper-case hexadecimal digits. *)
Fixpoint encodeURIComponent (s : string) : string :=
  match s with
  | EmptyString => EmptyString
  | String c r =>
      if uri_unreserved c then String c (encodeURIComponent r)
      else String "%" (String (hex_digit (code c / 16))
                         (String (hex_digit (code c mod 16))
                            (encodeURIComponent r)))
  end.

End Js.

(** ** Presentation mapping *)

(** [getBackgroundGradient] (first revision, lines 66-83). *)
Definition getBackgroundGradient (description : string) (isDay : bool) : string :=
  let desc := Js.toLowerCase description in
  if Js.includes desc "thunder" || Js.includes desc "storm"
  then "from-gray-800 via-slate-800 to-gray-900"
  else if Js.includes desc "snow" || Js.includes desc "blizzard"
          || Js.includes desc "sleet"
  then "from-indigo-300 via-blue-200 to-slate-300"
  else if Js.includes desc "rain" || Js.includes desc "drizzle"
          || Js.includes desc "shower"
  then "from-slate-600 via-gray-600 to-slate-800"
  else if Js.includes desc "fog" || Js.includes desc "mist"
          || Js.includes desc "haze"
  then "from-gray-400 via-slate-400 to-gray-500"
  else if Js.includes desc "overcast" || Js.includes desc "cloudy"
  then "from-slate-700 via-gray-700 to-slate-900"
  else if Js.includes desc "partly cloudy"
  then (if isDay then "from-sky-400 via-blue-400 to-slate-500"
        else "from-indigo-800 via-slate-800 to-gray-900")
  else if Js.includes desc "clear" || Js.includes desc "sunny"
  then (if isDay then "from-blue-400 via-sky-400 to-blue-600"
        else "from-indigo-900 via-purple-900 to-slate-900")
  else (if isDay then "from-sky-500 via-blue-500 to-cyan-500"
        else "from-slate-800 via-indigo-900 to-gray-900").

Inductive icon := CloudLightning | CloudSnow | CloudRain | CloudFog | Cloud | Sun.

(** [getWeatherIcon] (the same in both revisions). *)
Definition getWeatherIcon (description : string) : icon :=
  let desc := Js.toLowerCase description in
  if Js.includes desc "thunder" || Js.includes desc "storm" then CloudLightning
  else if Js.includes desc "snow" || Js.includes desc "blizzard"
          || Js.includes desc "sleet" then CloudSnow
  else if Js.includes desc "rain" || Js.includes desc "drizzle"
          || Js.includes desc "shower" then CloudRain
  else if Js.includes desc "fog" || Js.includes desc "mist"
          || Js.includes desc "haze" then CloudFog
  else if Js.includes desc "overcast" || Js.includes desc "cloudy" then Cloud
  else if Js.includes desc "clear" || Js.includes desc "sunny" then Sun
  else Cloud.

Record uv_label := { label : string; color : string }.

(** [getUvLabel]; the two revisions differ in the colour classes only.
    The argument is an integer UV index. *)
Definition getUvLabel (rev : revision) (uv : Z) : uv_label :=
  match rev with
  | Rev1 =>
      if uv <=? 2 then {| label := "Low"; color := "text-green-300" |}
      else if uv <=? 5 then {| label := "Moderate"; color := "text-yellow-300" |}
      else if uv <=? 7 then {| label := "High"; color := "text-orange-300" |}
      else if uv <=? 10 then {| label := "Very High"; color := "text-red-300" |}
      else {| label := "Extreme"; color := "text-pink-300" |}
  | Rev2 =>
      if uv <=? 2 then {| label := "Low"; color := "text-emerald-400" |}
      else if uv <=? 5 then {| label := "Moderate"; color := "text-yellow-400" |}
      else if uv <=? 7 then {| label := "High"; color := "text-orange-400" |}
      else if uv <=? 10 then {| label := "Very High"; color := "text-red-400" |}
      else {| label := "Extreme"; color := "text-pink-400" |}
  end.

(** ** JSON values and JavaScript property reads *)

Set Warnings "-register-all".

(** What [JSON.parse] produces.  Numbers are integers here: the
    program compares them with [615] and [101] and tests them for zero. *)
Inductive json :=
| JNull
| JBool (b : bool)
| JNum (n : Z)
| JStr (s : string)
| JArr (items : list json)
| JObj (fields : list (string * json)).

(** A thrown value: whether it is a [TypeError], and its [message]. *)
Record js_error := { is_TypeError : bool; err_message : string }.

Inductive completion (A : Type) :=
| Normal (a : A)
| Throw (e : js_error).
Arguments Normal {A} a.
Arguments Throw {A} e.

Definition bind {A B} (c : completion A) (k : A -> completion B) : completion B :=
  match c with
  | Normal a => k a
  | Throw e => Throw e
  end.

Notation "x <- c ;; k" := (bind c (fun x => k))
  (at level 100, c at next level, right associativity).

(** The value of a key of a parsed object; of a repeated key the last
    occurrence counts, as in [JSON.parse]. *)
Definition field (k : string) (fields : list (string * json)) : option json :=
  fold_left (fun acc kv => if String.eqb (fst kv) k then Some (snd kv) else acc)
            fields None.

(** [v.k] for the keys read by the program ([success], [error], [code],
    [info]); [None] is [undefined].  Reading a property of [null] or
    [undefined] throws a [TypeError]; a primitive or an array has none of
    these keys. *)
Definition prop (v : option json) (k : string) : completion (option json) :=
  match v with
  | None =>
      Throw {| is_TypeError := true;
               err_message := "Cannot read properties of undefined (reading '" +:+ k +:+ "')" |}
  | Some JNull =>
      Throw {| is_TypeError := true;
               err_message := "Cannot read properties of null (reading '" +:+ k +:+ "')" |}
  | Some (JObj fields) => Normal (field k fields)
  | Some _ => Normal None
  end.

(** JavaScript truthiness. *)
Definition truthy (v : option json) : bool :=
  match v with
  | None | Some JNull => false
  | Some (JBool b) => b
  | Some (JNum n) => negb (n =? 0)
  | Some (JStr s) => Js.nonempty s
  | Some (JArr _) | Some (JObj _) => true
  end.

(** [v === false] and [v === n] for a number literal [n]. *)
Definition is_false (v : option json) : bool :=
  match v with Some (JBool false) => true | _ => false end.

Definition is_num (n : Z) (v : option json) : bool :=
  match v with Some (JNum m) => m =? n | _ => false end.

(** [v || d] *)
Definition or_else (v : option json) (d : json) : json :=
  match v with
  | Some j => if truthy v then j else d
  | None => d
  end.

(** ** Dashboard state *)

Inductive severity := error | warning | info.

(** The [message] is whatever value reaches [addToast]: the annotation
    [string] is erased, and [err.error.info] comes from the parsed body. *)
Record Toast := { id : Z; message : json; type : severity }.

(** The five [useState] cells of the component, and the browser's
    [localStorage]. *)
Record state := {
  weather : option json;
  loading : bool;
  query : string;
  toasts : list Toast;
  locating : bool;
  localStorage : gmap string string
}.

Definition setWeather (w : option json) (s : state) : state :=
  {| weather := w; loading := loading s; query := query s;
     toasts := toasts s; locating := locating s;
     localStorage := localStorage s |}.

Definition setLoading (b : bool) (s : state) : state :=
  {| weather := weather s; loading := b; query := query s;
     toasts := toasts s; locating := locating s;
     localStorage := localStorage s |}.

Definition setQuery (q : string) (s : state) : state :=
  {| weather := weather s; loading := loading s; query := q;
     toasts := toasts s; locating := locating s;
     localStorage := localStorage s |}.

Definition setToasts (f : list Toast -> list Toast) (s : state) : state :=
  {| weather := weather s; loading := loading s; query := query s;
     toasts := f (toasts s); locating := locating s;
     localStorage := localStorage s |}.

Definition setLocating (b : bool) (s : state) : state :=
  {| weather := weather s; loading := loading s; query := query s;
     toasts := toasts s; locating := b;
     localStorage := localStorage s |}.

(** How a call of [localStorage.setItem] ends: the value is stored, or
    the call throws (quota exceeded, storage not available). *)
Inductive storage_write := WriteOk | WriteThrows (e : js_error).

(** [localStorage.setItem(k, v)] *)
Definition setItem (k v : string) (wr : storage_write) (s : state)
    : completion state :=
  match wr with
  | WriteOk =>
      Normal {| weather := weather s; loading := loading s; query := query s;
                toasts := toasts s; locating := locating s;
                localStorage := <[k := v]> (localStorage s) |}
  | WriteThrows e => Throw e
  end.

(** How a block of statements ends: normally, or with a thrown value, in
    both cases with the state reached by then. *)
Inductive block :=
| Completed (s : state)
| Thrown (e : js_error) (s : state).

(** A computation that, when it throws, has not changed the state [s]. *)
Definition from (s : state) (c : completion state) : block :=
  match c with
  | Normal s' => Completed s'
  | Throw e => Thrown e s
  end.

(** What the code reads from its surroundings: [window.location],
    [import.meta.env.VITE_WEATHER_KEY] and [navigator.geolocation]. *)
Record browser := {
  hostname : string;
  protocol : string;
  API_KEY : option string;
  geolocation : bool
}.

(** [addToast]; [now] is the value of [Date.now()] at the call. *)
Definition addToast (now : Z) (msg : json) (ty : severity) (s : state) : state :=
  setToasts (fun prev => prev ++ [ {| id := now; message := msg; type := ty |} ]) s.

Definition removeToast (i : Z) (s : state) : state :=
  setToasts (filter (fun t => id t ≠ i)) s.

(** *** fetchWeather *)

(** How [await fetch(url)] followed by [await res.json()] ends. *)
Inductive fetch_result :=
| FetchRejected (e : js_error)
| JsonRejected (e : js_error)
| Parsed (data : json).

(** A value in a template literal. *)
Definition interpolate (v : option string) : string :=
  match v with Some s => s | None => "undefined" end.

Definition direct_url (key : option string) (q : string) : string :=
  "http://api.weatherstack.com/current?access_key=" +:+ interpolate key
    +:+ "&query=" +:+ Js.encodeURIComponent q.

Definition proxy_url (q : string) : string :=
  "/api/weather?query=" +:+ Js.encodeURIComponent q.

Definition isLocal (env : browser) : bool :=
  String.eqb (hostname env) "localhost" || String.eqb (hostname env) "127.0.0.1".

(** The [url] passed to [fetch] (lines 229 and 723-727). *)
Definition request_url (rev : revision) (env : browser) (q : string) : string :=
  match rev with
  | Rev1 => direct_url (API_KEY env) q
  | Rev2 => if isLocal env then direct_url (API_KEY env) q else proxy_url q
  end.

Definition mixed_content_warning : json :=
  JStr "Weatherstack free tier uses HTTP. Your browser may block this request on HTTPS. Run locally or use a proxy.".

(** The part of [fetchWeather] that runs before the first [await]: the
    new state, and the URL fetched if a request is made. *)
Definition fetchWeather_begin (rev : revision) (env : browser) (now : Z)
    (q : string) (s : state) : state * option string :=
  if negb (Js.nonempty (Js.trim q)) then (s, None)
  else
    let s := setLoading true s in
    let s := setWeather None s in
    let s := match rev with
             | Rev1 =>
                 if String.eqb (protocol env) "https:"
                 then addToast now mixed_content_warning warning s
                 else s
             | Rev2 => s
             end in
    (s, Some (request_url rev env q)).

(** The branch taken when [data.success === false]. *)
Definition api_error (now : Z) (data : json) (s : state) : completion state :=
  err_error <- prop (Some data) "error" ;;
  code <- prop err_error "code" ;;
  s' <- (if is_num 615 code then
           Normal (addToast now (JStr "City not found. Please check the name and try again.") error s)
         else if is_num 101 code then
           Normal (addToast now (JStr "Invalid API key. Please check your .env configuration.") error s)
         else
           err_info <- prop err_error "info" ;;
           Normal (addToast now (or_else err_info (JStr "An unknown API error occurred.")) error s)) ;;
  Normal (setLoading false s').

(** The body of the [try] block after the two [await]s; [wr] is how the
    call of [localStorage.setItem] ends, if it is reached. *)
Definition try_body (now : Z) (q : string) (data : json) (wr : storage_write)
    (s : state) : block :=
  match prop (Some data) "success" with
  | Throw e => Thrown e s
  | Normal success =>
      if is_false success then from s (api_error now data s)
      else
        let s := setWeather (Some data) s in
        from s (setItem "weather_last_city" (Js.trim q) wr s)
  end.

(** The message chosen in the [catch] block. *)
Definition catch_message (rev : revision) (e : js_error) : json :=
  match rev with
  | Rev1 =>
      if is_TypeError e && Js.includes (err_message e) "fetch"
      then JStr "Network error ‚Äî the request was likely blocked due to mixed content (HTTP on HTTPS). Try running on localhost."
      else JStr "Failed to fetch weather data. Please try again."
  | Rev2 => JStr "Failed to fetch weather data. Please try again."
  end.

(** The rest of [fetchWeather], run when the request has ended with [r]:
    [try] body, [catch], [finally]. *)
Definition fetchWeather_resume (rev : revision) (now : Z) (q : string)
    (r : fetch_result) (wr : storage_write) (s : state) : state :=
  let attempt :=
    match r with
    | FetchRejected e | JsonRejected e => Thrown e s
    | Parsed data => try_body now q data wr s
    end in
  let s' := match attempt with
            | Completed s' => s'
            | Thrown e s' => addToast now (catch_message rev e) error s'
            end in
  setLoading false s'.

(** *** Event handlers *)

(** [handleLocateMe]: the new state, and whether a position was requested. *)
Definition handleLocateMe (env : browser) (now : Z) (s : state) : state * bool :=
  if negb (geolocation env)
  then (addToast now (JStr "Geolocation is not supported by your browser.") warning s, false)
  else (setLocating true s, true).

(** The success callback of [getCurrentPosition]; [lat] and [lon] are the
    two coordinates as the template literal prints them. *)
Definition located (rev : revision) (env : browser) (now : Z)
    (lat lon : string) (s : state) : state * option string * string :=
  let coords := lat +:+ "," +:+ lon in
  let s := setQuery coords s in
  let '(s, req) := fetchWeather_begin rev env now coords s in
  (setLocating false s, req, coords).

(** The error callback of [getCurrentPosition]. *)
Definition locate_failed (now : Z) (s : state) : state :=
  let s := addToast now (JStr "Location access denied. Please allow location permissions.") warning s in
  setLocating false s.

(** [saved || 'London'] in the mount effect. *)
Definition initial_query (s : state) : string :=
  match localStorage s !! "weather_last_city" with
  | Some saved => if Js.nonempty saved then saved else "London"
  | None => "London"
  end.

(** *** The component as a transition system

    Every handler runs to completion; a fetch that has begun stays in
    [inflight] (with the query it was called with) until its request
    ends, and requests may end in any order. *)
Record system := { ui : state; inflight : list string }.

Inductive event :=
| Mount
| Change (text : string)
| Submit
| LocateMe
| Located (lat lon : string)
| LocateFailed
| Settled (n : nat) (r : fetch_result) (wr : storage_write)
| CloseToast (i : Z).

Definition begin_fetch (rev : revision) (env : browser) (now : Z)
    (q : string) (w : system) : system :=
  let '(s, req) := fetchWeather_begin rev env now q (ui w) in
  {| ui := s;
     inflight := match req with
                 | Some _ => inflight w ++ [q]
                 | None => inflight w
                 end |}.

Definition step (rev : revision) (env : browser) (w : system)
    (ev : Z * event) : system :=
  let now := fst ev in
  match snd ev with
  | Mount =>
      let initial := initial_query (ui w) in
      begin_fetch rev env now initial
        {| ui := setQuery initial (ui w); inflight := inflight w |}
  | Change text => {| ui := setQuery text (ui w); inflight := inflight w |}
  | Submit => begin_fetch rev env now (query (ui w)) w
  | LocateMe => {| ui := fst (handleLocateMe env now (ui w)); inflight := inflight w |}
  | Located lat lon =>
      let '(s, req, coords) := located rev env now lat lon (ui w) in
      {| ui := s;
         inflight := match req with
                     | Some _ => inflight w ++ [coords]
                     | None => inflight w
                     end |}
  | LocateFailed => {| ui := locate_failed now (ui w); inflight := inflight w |}
  | Settled n r wr =>
      match inflight w !! n with
      | Some q => {| ui := fetchWeather_resume rev now q r wr (ui w);
                     inflight := delete n (inflight w) |}
      | None => w
      end
  | CloseToast i => {| ui := removeToast i (ui w); inflight := inflight w |}
  end.

(** The state of a freshly mounted component over a given [localStorage]. *)
Definition fresh (stored : gmap string string) : system :=
  {| ui := {| weather := None; loading := false; query := EmptyString;
              toasts := []; locating := false; localStorage := stored |};
     inflight := [] |}.

Definition run (rev : revision) (env : browser) (trace : list (Z * event))
    (w : system) : system :=
  fold_left (step rev env) trace w.

Definition reachable (rev : revision) (env : browser) (w : system) : Prop :=
  exists stored trace, w = run rev env trace (fresh stored).

(** ** The proxy endpoint ([api/weather.js]) *)

(** A value of [req.query]: one string, or an array when the parameter is
    repeated. *)
Inductive param := One (s : string) | Many (l : list string).

Definition param_truthy (p : option param) : bool :=
  match p with
  | None => false
  | Some (One s) => Js.nonempty s
  | Some (Many _) => true
  end.

(** [String(p)], as [encodeURIComponent] applies it. *)
Definition param_string (p : option param) : string :=
  match p with
  | None => "undefined"
  | Some (One s) => s
  | Some (Many l) => String.concat "," l
  end.

(** The status, the headers the handler sets itself, and the JSON body. *)
Record response := { status : Z; headers : list (string * string); body : json }.

Definition error_body (ty inf : string) : json :=
  JObj [("success", JBool false);
        ("error", JObj [("code", JNum 0); ("type", JStr ty); ("info", JStr inf)])].

Definition dquote : string := String "034" EmptyString.

(** A run of the handler: it answers at once, or makes one upstream
    request and answers from how that ends. *)
Inductive proxy_run :=
| Respond (r : response)
| Upstream (url : string) (k : fetch_result -> response).

Definition handler (query : option param) (WEATHER_KEY : option string) : proxy_run :=
  if negb (param_truthy query) then
    Respond {| status := 400; headers := [];
               body := error_body "bad_request"
                         ("Missing " +:+ dquote +:+ "query" +:+ dquote +:+ " parameter.") |}
  else
    let API_KEY := WEATHER_KEY in
    if negb (match API_KEY with Some k => Js.nonempty k | None => false end) then
      Respond {| status := 500; headers := [];
                 body := error_body "server_error" "API key not configured on server." |}
    else
      Upstream
        ("http://api.weatherstack.com/current?access_key=" +:+ interpolate API_KEY
           +:+ "&query=" +:+ Js.encodeURIComponent (param_string query))
        (fun r =>
           match r with
           | Parsed data =>
               {| status := 200;
                  headers := [("Cache-Control", "s-maxage=300, stale-while-revalidate=600")];
                  body := data |}
           | FetchRejected _ | JsonRejected _ =>
               {| status := 502; headers := [];
                  body := error_body "proxy_error" "Failed to reach Weatherstack API." |}
           end).

(** The response of a run whose upstream request, if made, ends with [r]. *)
Definition respond (run : proxy_run) (r : fetch_result) : response :=
  match run with
  | Respond resp => resp
  | Upstream _ k => k r
  end.

(** ** Statements and sample inputs *)

Definition sample_browser : browser :=
  {| hostname := "weather.example"; protocol := "https:";
     API_KEY := Some "k3y"; geolocation := true |}.

Definition sample_state : state :=
  {| weather := Some (JObj [("current", JObj [("temperature", JNum 21)])]);
     loading := false; query := "Paris";
     toasts := [];
     locating := false;
     localStorage := {["weather_last_city" := "Paris"]} |}.

(** The message of a typed API error in the words of the specification:
    615 and 101 have fixed messages, another code gives [error.info] when
    it is present and the fallback when it is absent. *)
Definition stated_error_message (code info : option json) : json :=
  if is_num 615 code then JStr "City not found. Please check the name and try again."
  else if is_num 101 code then JStr "Invalid API key. Please check your .env configuration."
  else match info with
       | Some i => i
       | None => JStr "An unknown API error occurred."
       end.

Definition C1_as_stated : Prop :=
  forall rev now q data err code info wr s,
    prop (Some data) "success" = Normal (Some (JBool false)) ->
    prop (Some data) "error" = Normal (Some err) ->
    prop (Some err) "code" = Normal code ->
    prop (Some err) "info" = Normal info ->
    toasts (fetchWeather_resume rev now q (Parsed data) wr s)
    = toasts s ++ [ {| id := now; message := stated_error_message code info;
                       type := error |} ].

(** An error envelope whose [info] is present and empty. *)
Definition empty_info_error : json :=
  JObj [("code", JNum 601); ("type", JStr "missing_query");
        ("info", JStr EmptyString)].

Definition empty_info_envelope : json :=
  JObj [("success", JBool false); ("error", empty_info_error)].




(** What the storage refuses when it is full. *)
Definition quota_exceeded : js_error :=
  {| is_TypeError := false;
     err_message := "Failed to execute 'setItem' on 'Storage': Setting the value of 'weather_last_city' exceeded the quota." |}.

(** The bodies that reach the success branch of the code: the request and
    the parse succeed, and the body is not [null] and does not carry
    [success: false].  (Reading [data.success] of a [null] body throws,
    which ends in the [catch] block like a failed request.) *)
Definition accepted (r : fetch_result) : option json :=
  match r with
  | FetchRejected _ | JsonRejected _ => None
  | Parsed JNull => None
  | Parsed (JObj fields) =>
      if is_false (field "success" fields) then None else Some (JObj fields)
  | Parsed data => Some data
  end.

(** While the loading flag is set there is no payload. *)
Definition no_payload_while_loading (s : state) : Prop :=
  loading s = true -> weather s = None.

(** Two searches overlap; the first one's request ends with a payload
    while the second is still in flight. *)
Definition overlapping_trace : list (Z * event) :=
  [ (1000, Change "Paris"); (1001, Submit);
    (1500, Change "Oslo"); (1501, Submit);
    (1700, Settled 0 (Parsed (JObj [("current", JObj [])])) WriteOk) ].

Definition failed_to_fetch : js_error :=
  {| is_TypeError := true; err_message := "Failed to fetch" |}.

(** Two searches whose requests both fail within the same millisecond. *)
Definition same_tick_trace : list (Z * event) :=
  [ (1000, Change "Paris"); (1001, Submit); (1002, Submit);
    (1400, Settled 0 (FetchRejected failed_to_fetch) WriteOk);
    (1400, Settled 0 (FetchRejected failed_to_fetch) WriteOk) ].

(** A search on an HTTPS origin in the first revision, whose request is
    blocked within the millisecond of the call. *)
Definition blocked_trace : list (Z * event) :=
  [ (1000, Change "Paris"); (1400, Submit);
    (1400, Settled 0 (FetchRejected failed_to_fetch) WriteOk) ].

(** [!!API_KEY] in the handler. *)
Definition key_configured (key : option string) : bool :=
  match key with Some k => Js.nonempty k | None => false end.

Definition bad_request : json :=
  error_body "bad_request" ("Missing " +:+ dquote +:+ "query" +:+ dquote +:+ " parameter.").

Definition server_error : json :=
  error_body "server_error" "API key not configured on server.".

Definition proxy_error : json :=
  error_body "proxy_error" "Failed to reach Weatherstack API.".

(** The three error statuses in the words of the specification: 400
    exactly when the parameter is missing, 500 exactly when it is present
    and no key is configured, 502 exactly when (parameter and key being
    there) the upstream request fails in transport. *)
Definition C4_as_stated : Prop :=
  forall (query : option param) (key : option string) (r : fetch_result),
    let resp := respond (handler query key) r in
    (status resp = 400 /\ body resp = bad_request <-> query = None) /\
    (status resp = 500 /\ body resp = server_error <->
       query <> None /\ key_configured key = false) /\
    (status resp = 502 /\ body resp = proxy_error <->
       query <> None /\ key_configured key = true /\ exists e, r = FetchRejected e).

(** ** Rendering and further sample inputs *)

(** The three conditional blocks of the returned JSX (lines 374, 377 and
    504; 900, 903 and 1064): [loading && ...], [weather && !loading && ...]
    and [!weather && !loading && ...].  The function that builds them,
    [render], comes after the derived values below. *)
Record panels := { skeleton : bool; data_view : bool; placeholder : bool }.

(** The comments under the humidity, visibility and pressure cards
    (lines 442-446, 471-475 and 488-490), on integer readings. *)
Definition humidity_comment (humidity : Z) : string :=
  if 70 <? humidity then "High moisture"
  else if 40 <? humidity then "Comfortable"
  else "Dry air".

Definition visibility_comment (visibility : Z) : string :=
  if 10 <=? visibility then "Crystal clear"
  else if 5 <=? visibility then "Good"
  else "Poor visibility".

Definition pressure_comment (pressure : Z) : string :=
  if 1013 <=? pressure then "High pressure" else "Low pressure".

(** Whether the byte [c] occurs in [s]. *)
Fixpoint occurs (c : ascii) (s : string) : bool :=
  match s with
  | EmptyString => false
  | String c' r => Ascii.eqb c c' || occurs c r
  end.

(** The printable ASCII characters other than the space. *)
Definition printable (c : ascii) : bool :=
  ((33 <=? Js.code c) && (Js.code c <=? 126))%N.

(** A development machine: the page is served from [localhost]. *)
Definition local_browser (key : option string) : browser :=
  {| hostname := "localhost"; protocol := "http:";
     API_KEY := key; geolocation := true |}.

(** The keywords of the first five tests of [getBackgroundGradient]. *)
Definition keyed_categories : list string :=
  ["thunder"; "storm"; "snow"; "blizzard"; "sleet"; "rain"; "drizzle";
   "shower"; "fog"; "mist"; "haze"; "overcast"; "cloudy"].

(** Two searches in flight, the second of which settles first. *)
Definition crossing_state : system :=
  run Rev2 sample_browser
    [ (1000, Change "Paris"); (1001, Submit); (1500, Change "Oslo"); (1501, Submit) ]
    (fresh ∅).

(** An envelope that says [success: false] and has no [error]. *)
Definition bare_failure : json := JObj [("success", JBool false)].

(** *** Derived values of a render (lines 298-303 and 792-793)

    [description], [isDay], [gradient] and [WeatherIcon] are computed on
    every render, before any of the three blocks is chosen.  The keys read
    here ([current], [weather_descriptions], [is_day]) are, like those of
    [prop], no properties of a primitive or an array. *)

(** The first character of a string: [s[0]] for a string whose first
    character is in the Basic Multilingual Plane.  (For a character
    outside it JavaScript gives half a surrogate pair, which no UTF-8
    string stands for; its four bytes are kept, and like the half pair
    they contain no keyword.) *)
Definition first_char (s : string) : option string :=
  match s with
  | EmptyString => None
  | String c r =>
      let n := Js.code c in
      let len := if (n <? 192)%N then 1%nat
                 else if (n <? 224)%N then 2%nat
                 else if (n <? 240)%N then 3%nat else 4%nat in
      Some (String.substring 0 len s)
  end.

(** [v[0]] *)
Definition element0 (v : option json) : completion (option json) :=
  match v with
  | None =>
      Throw {| is_TypeError := true;
               err_message := "Cannot read properties of undefined (reading '0')" |}
  | Some JNull =>
      Throw {| is_TypeError := true;
               err_message := "Cannot read properties of null (reading '0')" |}
  | Some (JArr items) => Normal (head items)
  | Some (JObj fields) => Normal (field "0" fields)
  | Some (JStr s) => Normal (JStr <$> first_char s)
  | Some (JBool _) | Some (JNum _) => Normal None
  end.

(** [v.toLowerCase()] is there for strings only. *)
Definition as_string (v : json) : completion string :=
  match v with
  | JStr s => Normal s
  | _ => Throw {| is_TypeError := true;
                  err_message := "description.toLowerCase is not a function" |}
  end.

Record derived_values := {
  description : json;
  gradient : option string;
  WeatherIcon : icon
}.

Definition derived (rev : revision) (w : option json) : completion derived_values :=
  d <- match w with
       | None | Some JNull => Normal None
       | Some _ =>
           current <- prop w "current" ;;
           descriptions <- prop current "weather_descriptions" ;;
           element0 descriptions
       end ;;
  let description :=
    match d with None | Some JNull => JStr EmptyString | Some v => v end in
  match rev with
  | Rev1 =>
      is_day <- match w with
                | None | Some JNull => Normal None
                | Some _ => current <- prop w "current" ;; prop current "is_day"
                end ;;
      let isDay := match is_day with
                   | Some (JStr v) => String.eqb v "yes"
                   | _ => false
                   end in
      g <- (if truthy w
            then s <- as_string description ;; Normal (getBackgroundGradient s isDay)
            else Normal "from-slate-700 via-gray-700 to-slate-900") ;;
      i <- (if truthy w
            then s <- as_string description ;; Normal (getWeatherIcon s)
            else Normal Cloud) ;;
      Normal {| description := description; gradient := Some g; WeatherIcon := i |}
  | Rev2 =>
      i <- (if truthy w
            then s <- as_string description ;; Normal (getWeatherIcon s)
            else Normal Cloud) ;;
      Normal {| description := description; gradient := None; WeatherIcon := i |}
  end.

(** Reads the properties [keys] of [obj], one after the other. *)
Definition reads (obj : option json) (keys : list string) : completion unit :=
  fold_left (fun c k => _ <- c ;; _ <- prop obj k ;; Normal tt) keys (Normal tt).

(** The property reads of the data block, in the order of the JSX (lines
    377-500 and 903-1061): they are reads of [weather.current] and of
    [weather.location].  The comparisons and [getUvLabel] do not throw. *)
Definition data_block (w : option json) : completion unit :=
  current <- prop w "current" ;;
  _ <- reads current ["temperature"; "feelslike"] ;;
  location <- prop w "location" ;;
  _ <- reads location ["name"; "region"; "country"; "localtime"] ;;
  _ <- reads current ["wind_speed"; "wind_dir"; "cloudcover"; "humidity";
                      "uv_index"; "visibility"; "pressure"] ;;
  reads location ["utc_offset"].

(** One call of the component function: the derived values, then the
    three conditional blocks, of which the data block evaluates its
    property reads.  The result says which blocks are in the returned
    JSX; what React then does with the elements is not part of it. *)
Definition render (rev : revision) (s : state) : completion panels :=
  _ <- derived rev (weather s) ;;
  shown <- (if truthy (weather s) && negb (loading s)
            then _ <- data_block (weather s) ;; Normal true
            else Normal false) ;;
  Normal {| skeleton := loading s;
            data_view := shown;
            placeholder := negb (truthy (weather s)) && negb (loading s) |}.

(** Whether [s] is the UTF-8 encoding of a sequence of Unicode scalar
    values, that is, of a JavaScript string without lone surrogates.  On
    such strings [encodeURIComponent] cannot throw. *)
Definition continuation (m : N) : bool := ((128 <=? m) && (m <=? 191))%N.

Fixpoint well_formed (s : string) : bool :=
  match s with
  | EmptyString => true
  | String a r =>
      let n := Js.code a in
      if (n <? 128)%N then well_formed r
      else
        match r with
        | EmptyString => false
        | String b r1 =>
            let m := Js.code b in
            if ((194 <=? n) && (n <=? 223))%N
            then continuation m && well_formed r1
            else
              match r1 with
              | EmptyString => false
              | String c r2 =>
                  let k := Js.code c in
                  if ((224 <=? n) && (n <=? 239))%N
                  then (if (n =? 224)%N then ((160 <=? m) && (m <=? 191))%N
                        else if (n =? 237)%N then ((128 <=? m) && (m <=? 159))%N
                        else continuation m)
                       && continuation k && well_formed r2
                  else
                    match r2 with
                    | EmptyString => false
                    | String d r3 =>
                        ((240 <=? n) && (n <=? 244))%N
                        && (if (n =? 240)%N then ((144 <=? m) && (m <=? 191))%N
                            else if (n =? 244)%N then ((128 <=? m) && (m <=? 143))%N
                            else continuation m)
                        && continuation k && continuation (Js.code d)
                        && well_formed r3
                    end
              end
        end
  end.

(** A state with two toasts in the queue. *)
Definition busy_state : state :=
  {| weather := None; loading := false; query := "Paris";
     toasts := [ {| id := 900; message := mixed_content_warning; type := warning |};
                 {| id := 950;
                    message := JStr "Failed to fetch weather data. Please try again.";
                    type := error |} ];
     locating := false;
     localStorage := ∅ |}.

(** A state that holds a payload and is not loading. *)
Definition showing_state : state :=
  {| weather := Some (JObj [("location", JObj [("name", JStr "Oslo")]);
                            ("current", JObj [("weather_descriptions", JArr [JStr "Light Snow"]);
                                              ("is_day", JStr "yes")])]);
     loading := false; query := "Oslo"; toasts := []; locating := false;
     localStorage := {["weather_last_city" := "Oslo"]} |}.

(** A payload of the shape the provider sends, reduced to what a render
    reads first. *)
Definition sample_payload : json :=
  JObj [("location", JObj [("name", JStr "Oslo")]);
        ("current", JObj [("weather_descriptions", JArr [JStr "Light Snow"]);
                          ("is_day", JStr "yes")])].

(** * Properties *)

Example trim_ex : Js.trim "  New York 	" = "New York".
Proof. vm_compute. reflexivity. Qed.

Example trim_nbsp : Js.trim (Js.bytes [194; 160; 32]%N) = EmptyString.
Proof. vm_compute. reflexivity. Qed.

Example encodeURIComponent_ex :
  Js.encodeURIComponent "New York,4" = "New%20York%2C4".
Proof. vm_compute. reflexivity. Qed.

Example getWeatherIcon_ex : getWeatherIcon "Light Rain Shower" = CloudRain.
Proof. vm_compute. reflexivity. Qed.

(** ** Presentation mapping *)

Section Includes.

Lemma prefix_app_includes (a b s : string) :
  String.prefix (a +:+ b) s = true -> Js.includes s b = true.
Proof.
  revert s. induction a as [|c a IH]; intros s H.
  - change (String.prefix b s = true) in H.
    destruct s; cbn [Js.includes]; rewrite H; reflexivity.
  - change (String.prefix (String c (a +:+ b)) s = true) in H.
    destruct s as [|c' s]; [discriminate|]. simpl in H.
    destruct (ascii_dec c c'); [|discriminate].
    cbn [Js.includes]. rewrite (IH _ H). apply orb_true_r.
Qed.

(** A string that includes [a ++ b] includes [b]. *)
Lemma includes_app_r (a b s : string) :
  Js.includes s (a +:+ b) = true -> Js.includes s b = true.
Proof.
  induction s as [|c s IH]; cbn [Js.includes]; intros H.
  - apply orb_true_iff in H as [H|H]; [|discriminate].
    apply (prefix_app_includes a b EmptyString H).
  - apply orb_true_iff in H as [H|H].
    + apply (prefix_app_includes a b (String c s) H).
    + rewrite (IH H). apply orb_true_r.
Qed.

End Includes.

(** X1: The branch for "partly cloudy" of [getBackgroundGradient] is never
    taken: its two gradients are returned for no description. *)
Lemma partly_cloudy_unreachable (description : string) (isDay : bool) :
  getBackgroundGradient description isDay <> "from-sky-400 via-blue-400 to-slate-500" /\
  getBackgroundGradient description isDay <> "from-indigo-800 via-slate-800 to-gray-900".
Proof.
  unfold getBackgroundGradient.
  repeat match goal with
         | |- context [if ?b then _ else _] => destruct b eqn:?
         end;
    try (split; discriminate).
  all: match goal with
       | H : Js.includes _ "partly cloudy" = true, H' : _ || _ = false |- _ =>
           pose proof (includes_app_r "partly " "cloudy" _ H) as Hc;
           rewrite Hc, orb_true_r in H'; discriminate
       end.
Qed.

(** C3: for a description whose lower-cased form contains "partly cloudy"
    and none of the earlier keywords (thunder, storm, snow, blizzard, sleet,
    rain, drizzle, shower, fog, mist, haze), the specification promises the day or
    night partly-cloudy gradient.  The code returns the overcast gradient
    for both values of [isDay]: the test for "cloudy" comes first. *)
Theorem C3_partly_cloudy_gets_overcast (description : string) (isDay : bool) :
  let desc := Js.toLowerCase description in
  Js.includes desc "partly cloudy" = true ->
  forallb (fun k => negb (Js.includes desc k))
    ["thunder"; "storm"; "snow"; "blizzard"; "sleet"; "rain"; "drizzle";
     "shower"; "fog"; "mist"; "haze"] = true ->
  getBackgroundGradient description isDay = "from-slate-700 via-gray-700 to-slate-900"
  /\ getBackgroundGradient description isDay
     <> (if isDay then "from-sky-400 via-blue-400 to-slate-500"
         else "from-indigo-800 via-slate-800 to-gray-900").
Proof.
  intros desc Hp Hnone.
  assert (Hc : Js.includes desc "cloudy" = true)
    by exact (includes_app_r "partly " "cloudy" desc Hp).
  simpl in Hnone.
  repeat (apply andb_true_iff in Hnone as [?%negb_true_iff Hnone]).
  assert (E : getBackgroundGradient description isDay
              = "from-slate-700 via-gray-700 to-slate-900").
  { unfold getBackgroundGradient. fold desc.
    repeat match goal with H : Js.includes desc _ = _ |- _ => rewrite H; clear H end.
    simpl. rewrite orb_true_r. reflexivity. }
  split; [exact E|]. rewrite E. destruct isDay; discriminate.
Qed.

Lemma C3_partly_cloudy_gets_overcast_witness :
  getBackgroundGradient "Partly cloudy" true = "from-slate-700 via-gray-700 to-slate-900"
  /\ getBackgroundGradient "Partly cloudy" true
     <> "from-sky-400 via-blue-400 to-slate-500".
Proof.
  apply (C3_partly_cloudy_gets_overcast "Partly cloudy" true); vm_compute; reflexivity.
Defined.

(** C5: for every integer UV index, in both revisions, [getUvLabel]
    gives "Low" iff uv <= 2, "Moderate" iff 2 < uv <= 5, "High" iff
    5 < uv <= 7, "Very High" iff 7 < uv <= 10 and "Extreme" iff uv > 10;
    the five boundary values 2, 3, 7, 8 and 11 get "Low", "Moderate",
    "High", "Very High" and "Extreme". *)
Theorem C5_getUvLabel_thresholds (rev : revision) (uv : Z) :
  (label (getUvLabel rev uv) = "Low" <-> uv <= 2) /\
  (label (getUvLabel rev uv) = "Moderate" <-> 2 < uv <= 5) /\
  (label (getUvLabel rev uv) = "High" <-> 5 < uv <= 7) /\
  (label (getUvLabel rev uv) = "Very High" <-> 7 < uv <= 10) /\
  (label (getUvLabel rev uv) = "Extreme" <-> uv > 10) /\
  label (getUvLabel rev 2) = "Low" /\
  label (getUvLabel rev 3) = "Moderate" /\
  label (getUvLabel rev 7) = "High" /\
  label (getUvLabel rev 8) = "Very High" /\
  label (getUvLabel rev 11) = "Extreme".
Proof.
  destruct rev; unfold getUvLabel;
    repeat match goal with
           | |- context [uv <=? ?n] => destruct (Z.leb_spec uv n)
           end; simpl;
    repeat split; intros; try lia; try discriminate; reflexivity.
Qed.

(** ** Fetch and classification *)

Lemma is_num_spec (n : Z) (v : option json) :
  is_num n v = true <-> v = Some (JNum n).
Proof.
  destruct v as [[| | m | | |]|]; simpl; split; intros H;
    try discriminate; try (inversion H; subst; apply Z.eqb_refl).
  apply Z.eqb_eq in H. subst. reflexivity.
Qed.

Lemma nonempty_spec (s : string) : Js.nonempty s = true <-> s <> EmptyString.
Proof. destruct s; simpl; split; intros; congruence. Qed.

(** C8: when the trimmed query is empty, [fetchWeather] returns at once:
    no request is made and the state (loading flag, payload, toast queue,
    persisted key and all the rest) is the one before the call. *)
Theorem C8_empty_query_is_noop (rev : revision) (env : browser) (now : Z)
    (q : string) (s : state) :
  Js.trim q = EmptyString ->
  fetchWeather_begin rev env now q s = (s, None).
Proof. intros H. unfold fetchWeather_begin. rewrite H. reflexivity. Qed.

Lemma C8_empty_query_is_noop_witness :
  fetchWeather_begin Rev1 sample_browser 1000 "  	 " sample_state
  = (sample_state, None).
Proof.
  apply (C8_empty_query_is_noop Rev1 sample_browser 1000 "  	 " sample_state).
  vm_compute. reflexivity.
Defined.





Ltac run_api_error Hs He Hc Hi :=
  unfold fetchWeather_resume, try_body; rewrite Hs;
  cbn [is_false]; unfold api_error; rewrite He; cbn [bind];
  rewrite Hc; cbn [bind].

(** C1 (as stated) fails: with [info] the empty string and a code other
    than 615 and 101, the toast carries the fallback, not [info]. *)
Lemma C1_counterexample : ~ C1_as_stated.
Proof.
  intros H.
  specialize (H Rev2 1000 "Paris" empty_info_envelope empty_info_error
                (Some (JNum 601)) (Some (JStr EmptyString)) WriteOk sample_state
                eq_refl eq_refl eq_refl eq_refl).
  vm_compute in H. discriminate H.
Qed.

(** C1 (amended): when the parsed body has [success: false] and carries
    an error object (neither absent nor null), one toast of severity [error] is appended; its message is the
    fixed "not found" text for code 615 and the fixed "invalid key" text
    for code 101, whatever [info] is; for any other code it is [info]
    itself when [info] is truthy, and the fixed fallback when [info] is
    absent or falsy (null or the empty string). *)
Theorem C1_api_error_message (rev : revision) (now : Z) (q : string)
    (data err : json) (code info : option json) (wr : storage_write) (s : state) :
  prop (Some data) "success" = Normal (Some (JBool false)) ->
  prop (Some data) "error" = Normal (Some err) ->
  prop (Some err) "code" = Normal code ->
  prop (Some err) "info" = Normal info ->
  exists m,
    toasts (fetchWeather_resume rev now q (Parsed data) wr s)
    = toasts s ++ [ {| id := now; message := m; type := error |} ] /\
    (code = Some (JNum 615) ->
     m = JStr "City not found. Please check the name and try again.") /\
    (code = Some (JNum 101) ->
     m = JStr "Invalid API key. Please check your .env configuration.") /\
    (code <> Some (JNum 615) -> code <> Some (JNum 101) ->
     (truthy info = true -> info = Some m) /\
     (truthy info = false -> m = JStr "An unknown API error occurred.")).
Proof.
  intros Hs He Hc Hi.
  destruct (is_num 615 code) eqn:E615; [|destruct (is_num 101 code) eqn:E101].
  - eexists. split; [run_api_error Hs He Hc Hi; rewrite E615; reflexivity|].
    apply is_num_spec in E615. subst code.
    repeat split; intros; congruence.
  - eexists. split; [run_api_error Hs He Hc Hi; rewrite E615, E101; reflexivity|].
    apply is_num_spec in E101. subst code.
    repeat split; intros; congruence.
  - eexists. split;
      [run_api_error Hs He Hc Hi; rewrite E615, E101, Hi; reflexivity|].
    split; [intros ->; discriminate|].
    split; [intros ->; discriminate|].
    intros _ _. unfold or_else. destruct info as [i|]; split; intros Ht;
      try rewrite Ht; try reflexivity; discriminate.
Qed.

Lemma C1_api_error_message_witness :
  exists m,
    toasts (fetchWeather_resume Rev2 1000 "Paris" (Parsed empty_info_envelope)
              WriteOk sample_state)
    = [ {| id := 1000; message := m; type := error |} ] /\
    m = JStr "An unknown API error occurred.".
Proof.
  destruct (C1_api_error_message Rev2 1000 "Paris" empty_info_envelope
              empty_info_error (Some (JNum 601)) (Some (JStr EmptyString))
              WriteOk sample_state
              eq_refl eq_refl eq_refl eq_refl)
    as (m & Ht & _ & _ & Hm).
  exists m. split; [exact Ht|].
  apply Hm; [discriminate | discriminate | reflexivity].
Defined.

(** The error branch, when it does not throw, appends one toast and
    touches neither the payload nor [localStorage]. *)
Lemma api_error_effect (now : Z) (data : json) (s s' : state) :
  api_error now data s = Normal s' ->
  localStorage s' = localStorage s /\ weather s' = weather s /\
  exists m, toasts s' = toasts s ++ [ {| id := now; message := m; type := error |} ].
Proof.
  unfold api_error.
  destruct (prop (Some data) "error") as [e|]; cbn [bind]; [|discriminate].
  destruct (prop e "code") as [c|]; cbn [bind]; [|discriminate].
  destruct (is_num 615 c); [|destruct (is_num 101 c)]; cbn [bind].
  1,2: intros [= <-]; repeat split; eexists; reflexivity.
  destruct (prop e "info") as [i|]; cbn [bind]; [|discriminate].
  intros [= <-]; repeat split; eexists; reflexivity.
Qed.

(** What the rest of [fetchWeather] does in any state: on the success
    branch it stores the body and, if the write goes through, the trimmed
    query; if the write throws, the body stays and one error toast is
    appended; in every other case one error toast is appended and payload
    and [localStorage] stay as they are. *)
Lemma fetchWeather_resume_effect (rev : revision) (now : Z) (q : string)
    (r : fetch_result) (wr : storage_write) (s : state) :
  let s2 := fetchWeather_resume rev now q r wr s in
  match accepted r, wr with
  | Some data, WriteOk =>
      localStorage s2 = <["weather_last_city" := Js.trim q]> (localStorage s) /\
      weather s2 = Some data /\ toasts s2 = toasts s
  | Some data, WriteThrows e =>
      localStorage s2 = localStorage s /\ weather s2 = Some data /\
      toasts s2 = toasts s ++ [ {| id := now; message := catch_message rev e;
                                   type := error |} ]
  | None, _ =>
      localStorage s2 = localStorage s /\ weather s2 = weather s /\
      exists m, toasts s2 = toasts s ++ [ {| id := now; message := m; type := error |} ]
  end.
Proof.
  unfold fetchWeather_resume.
  assert (Hcatch : forall e,
    let s2 := setLoading false (addToast now (catch_message rev e) error s) in
    localStorage s2 = localStorage s /\ weather s2 = weather s /\
    exists m, toasts s2 = toasts s ++ [ {| id := now; message := m; type := error |} ]).
  { intros e. repeat split. eexists. reflexivity. }
  destruct r as [e|e|data]; cbn [accepted]; try apply Hcatch.
  destruct data as [| b | n | str | items | fields]; unfold try_body;
    cbn [prop is_false]; try apply Hcatch;
    try (destruct wr; repeat split; reflexivity).
  destruct (is_false (field "success" fields)) eqn:Ef.
  - destruct (api_error now (JObj fields) s) as [s'|e] eqn:Ea; [|apply Hcatch].
    apply api_error_effect in Ea as (Hl' & Hw' & m & Ht').
    cbn. rewrite Hl', Hw', Ht'. repeat split; eauto.
  - destruct wr; repeat split; reflexivity.
Qed.


(** The write can fail as well: the body is then the payload, the catch
    block adds its toast and nothing is persisted. *)
Lemma failed_write_after_success :
  let s1 := fst (fetchWeather_begin Rev2 sample_browser 1000 "Oslo" sample_state) in
  let s2 := fetchWeather_resume Rev2 1200 "Oslo" (Parsed (JObj [("current", JObj [])]))
              (WriteThrows quota_exceeded) s1 in
  localStorage s2 = localStorage sample_state /\
  weather s2 = Some (JObj [("current", JObj [])]) /\
  map message (toasts s2) = [JStr "Failed to fetch weather data. Please try again."].
Proof. repeat split; reflexivity. Qed.



(** ** The component as a whole *)

Lemma fetchWeather_begin_inv rev env now q s :
  no_payload_while_loading s ->
  no_payload_while_loading (fst (fetchWeather_begin rev env now q s)).
Proof.
  intros H. unfold fetchWeather_begin.
  destruct (negb _); [exact H|].
  destruct rev; [destruct (String.eqb _ _)|]; intros _; reflexivity.
Qed.

Lemma fetchWeather_resume_inv rev now q r wr s :
  no_payload_while_loading (fetchWeather_resume rev now q r wr s).
Proof. unfold fetchWeather_resume. intros H. discriminate H. Qed.

Lemma step_inv rev env w ev :
  no_payload_while_loading (ui w) ->
  no_payload_while_loading (ui (step rev env w ev)).
Proof.
  intros H. destruct ev as [now ev]. unfold step. cbn [fst snd].
  destruct ev as [| text | | | lat lon | | n r wr | i].
  - unfold begin_fetch. cbn [ui].
    pose proof (fetchWeather_begin_inv rev env now (initial_query (ui w))
                  (setQuery (initial_query (ui w)) (ui w)) H) as H'.
    destruct (fetchWeather_begin _ _ _ _ _). exact H'.
  - exact H.
  - unfold begin_fetch.
    pose proof (fetchWeather_begin_inv rev env now (query (ui w)) (ui w) H) as H'.
    destruct (fetchWeather_begin _ _ _ _ _). exact H'.
  - unfold handleLocateMe. destruct (negb _); exact H.
  - unfold located.
    pose proof (fetchWeather_begin_inv rev env now (lat +:+ "," +:+ lon)
                  (setQuery (lat +:+ "," +:+ lon) (ui w)) H) as H'.
    destruct (fetchWeather_begin _ _ _ _ _). exact H'.
  - exact H.
  - destruct (inflight w !! n); [apply fetchWeather_resume_inv | exact H].
  - exact H.
Qed.

Lemma reachable_inv rev env w :
  reachable rev env w -> no_payload_while_loading (ui w).
Proof.
  intros (stored & trace & ->).
  induction trace as [|ev trace IH] using rev_ind.
  - intros H. discriminate H.
  - unfold run. rewrite fold_left_app. apply step_inv, IH.
Qed.

(** C6: in every reachable state of the component, whatever fetches are in
    flight and in whatever order their requests end, a set loading flag
    comes with an absent payload; and a call of [fetchWeather] with a
    non-empty trimmed query made in such a state leaves the payload absent
    and the loading flag set, with its request still in flight. *)
Theorem C6_payload_cleared_while_loading (rev : revision) (env : browser)
    (w : system) :
  reachable rev env w ->
  (loading (ui w) = true -> weather (ui w) = None) /\
  (forall now q, Js.trim q <> EmptyString ->
     let w' := begin_fetch rev env now q w in
     weather (ui w') = None /\ loading (ui w') = true /\
     inflight w' = inflight w ++ [q]).
Proof.
  intros Hr. split; [exact (reachable_inv rev env w Hr)|].
  intros now q Hq. apply nonempty_spec in Hq.
  unfold begin_fetch, fetchWeather_begin. rewrite Hq. cbn [negb].
  destruct rev; [destruct (String.eqb _ _)|]; repeat split; reflexivity.
Qed.

Lemma C6_payload_cleared_while_loading_witness :
  let w := run Rev2 sample_browser overlapping_trace (fresh ∅) in
  (loading (ui w) = true -> weather (ui w) = None) /\
  (forall now q, Js.trim q <> EmptyString ->
     let w' := begin_fetch Rev2 sample_browser now q w in
     weather (ui w') = None /\ loading (ui w') = true /\
     inflight w' = inflight w ++ [q]).
Proof.
  apply (C6_payload_cleared_while_loading Rev2 sample_browser
           (run Rev2 sample_browser overlapping_trace (fresh ∅))).
  exists ∅, overlapping_trace. reflexivity.
Defined.

(** *** Toast queue *)

(** [addToast] appends at the end and [removeToast] keeps the order of
    the toasts that stay. *)
Lemma addToast_appends now msg ty s :
  toasts (addToast now msg ty s)
  = toasts s ++ [ {| id := now; message := msg; type := ty |} ].
Proof. reflexivity. Qed.

Lemma removeToast_sublist i s : sublist (toasts (removeToast i s)) (toasts s).
Proof. apply sublist_filter. Qed.

(** C9: the specification asks for pairwise distinct, increasing toast ids.  An id
    is the value of [Date.now()] at the insertion, so two toasts inserted
    in the same millisecond share it.  In the second revision two failures
    in one millisecond leave two toasts with id 1400; in the first, the
    mixed-content warning and the error of a request blocked at once are
    two different toasts with id 1400.  Closing one of them (by its id)
    removes both. *)
Theorem C9_ids_collide :
  let w := run Rev2 sample_browser same_tick_trace (fresh ∅) in
  let w1 := run Rev1 sample_browser blocked_trace (fresh ∅) in
  map id (toasts (ui w)) = [1400; 1400] /\
  ~ NoDup (map id (toasts (ui w))) /\
  toasts (ui (step Rev2 sample_browser w (1500, CloseToast 1400))) = [] /\
  map (fun t => (id t, type t)) (toasts (ui w1)) = [(1400, warning); (1400, error)] /\
  toasts (ui (step Rev1 sample_browser w1 (1500, CloseToast 1400))) = [].
Proof.
  vm_compute. split; [reflexivity|]. split; [|repeat split; reflexivity].
  intros H. apply NoDup_cons in H as [H _]. apply H. left.
Qed.

(** ** The proxy endpoint *)

(** C4 (as stated) fails: a parameter that is present and empty
    ([?query=]) is answered with 400 as well. *)
Lemma C4_counterexample : ~ C4_as_stated.
Proof.
  intros H.
  destruct (H (Some (One EmptyString)) (Some "k3y") (Parsed JNull)) as [[H400 _] _].
  assert (E : Some (One EmptyString) = None) by (apply H400; split; reflexivity).
  discriminate E.
Qed.

(** C4 (amended): the handler answers 400 with the [bad_request] body
    exactly when the parameter is missing or empty; 500 with the
    [server_error] body exactly when the parameter is non-empty and the
    key is unset or empty; 502 with the [proxy_error] body exactly when
    parameter and key are there and the upstream request is rejected or
    its body does not parse; every one of the three bodies has
    [success: false] and [error.code = 0]. *)
Theorem C4_error_statuses (query : option param) (key : option string)
    (r : fetch_result) :
  let resp := respond (handler query key) r in
  (status resp = 400 <-> query = None \/ query = Some (One EmptyString)) /\
  (status resp = 500 <->
     param_truthy query = true /\ (key = None \/ key = Some EmptyString)) /\
  (status resp = 502 <->
     param_truthy query = true /\ key_configured key = true /\
     forall data, r <> Parsed data) /\
  (status resp = 400 -> body resp = bad_request) /\
  (status resp = 500 -> body resp = server_error) /\
  (status resp = 502 -> body resp = proxy_error) /\
  (forall ty inf,
     prop (Some (error_body ty inf)) "success" = Normal (Some (JBool false)) /\
     (e <- prop (Some (error_body ty inf)) "error" ;; prop e "code")
     = Normal (Some (JNum 0))).
Proof.
  unfold handler.
  destruct query as [[[|c q]|l]|]; cbn [param_truthy Js.nonempty negb];
    [| destruct key as [[|c' k]|]; cbn [Js.nonempty negb key_configured]; [| destruct r |] ..|];
    cbn [respond status body];
    repeat split; intros; try discriminate; try reflexivity;
      try (left; reflexivity); try (right; reflexivity);
      try congruence;
      repeat match goal with
             | H : _ \/ _ |- _ => destruct H
             | H : _ /\ _ |- _ => destruct H
             end;
      try discriminate; try congruence.
  all: match goal with H : forall d, Parsed _ <> Parsed d |- _ =>
         exfalso; eapply H; reflexivity end.
Qed.

(** An upstream answer that is not JSON is a 502 as well, although the
    request itself went through. *)
Lemma unparsable_body_is_502 (e : js_error) :
  respond (handler (Some (One "Paris")) (Some "k3y")) (JsonRejected e)
  = {| status := 502; headers := []; body := proxy_error |}.
Proof. reflexivity. Qed.


(** With a non-empty parameter and key the request is made. *)
Lemma handler_makes_request (query : option param) (key : option string) :
  param_truthy query = true -> key_configured key = true ->
  exists answer,
    handler query key
    = Upstream ("http://api.weatherstack.com/current?access_key=" +:+ interpolate key
                  +:+ "&query=" +:+ Js.encodeURIComponent (param_string query))
               answer.
Proof.
  intros Hq Hk. unfold handler, key_configured in *. rewrite Hq, Hk.
  eexists. reflexivity.
Qed.


(** * Further properties *)

(** ** Strings *)

Section Strings.

Lemma append_cons (c : ascii) (a b : string) :
  String c a +:+ b = String c (a +:+ b).
Proof. reflexivity. Qed.

Lemma append_empty_r (s : string) : s +:+ EmptyString = s.
Proof.
  induction s as [|c s IH]; [reflexivity|]. rewrite append_cons, IH. reflexivity.
Qed.

Lemma append_assoc (a b c : string) : (a +:+ b) +:+ c = a +:+ (b +:+ c).
Proof.
  induction a as [|x a IH]; [reflexivity|]. rewrite !append_cons, IH. reflexivity.
Qed.

Lemma rev_acc_app (s acc : string) :
  Js.rev_acc s acc = Js.rev s +:+ acc.
Proof.
  unfold Js.rev. revert acc.
  induction s as [|c s IH]; intros acc; [reflexivity|].
  cbn [Js.rev_acc]. rewrite (IH (String c acc)), (IH (String c EmptyString)).
  rewrite append_assoc. reflexivity.
Qed.

Lemma rev_app (a b : string) : Js.rev (a +:+ b) = Js.rev b +:+ Js.rev a.
Proof.
  induction a as [|c a IH].
  - cbn [String.append]. symmetry. apply append_empty_r.
  - change (Js.rev_acc (a +:+ b) (String c EmptyString)
            = Js.rev b +:+ Js.rev_acc a (String c EmptyString)).
    rewrite !rev_acc_app, IH. apply append_assoc.
Qed.

Lemma rev_involutive (s : string) : Js.rev (Js.rev s) = s.
Proof.
  induction s as [|c s IH]; [reflexivity|].
  change (Js.rev (Js.rev_acc s (String c EmptyString)) = String c s).
  rewrite rev_acc_app, rev_app, IH. reflexivity.
Qed.

Lemma length_append (a b : string) :
  String.length (a +:+ b) = (String.length a + String.length b)%nat.
Proof.
  induction a as [|c a IH]; [reflexivity|].
  rewrite append_cons. cbn [String.length plus]. rewrite IH. reflexivity.
Qed.

Lemma length_rev (s : string) : String.length (Js.rev s) = String.length s.
Proof.
  induction s as [|c s IH]; [reflexivity|].
  change (String.length (Js.rev_acc s (String c EmptyString)) = S (String.length s)).
  rewrite rev_acc_app, length_append, IH. cbn. lia.
Qed.

Lemma prefix_split (w s : string) :
  String.prefix w s = true -> s = w +:+ Js.drop (String.length w) s.
Proof.
  revert s. induction w as [|c w IH]; intros s H.
  - destruct s; reflexivity.
  - destruct s as [|c' s]; [discriminate|]. cbn in H.
    destruct (ascii_dec c c') as [->|]; [|discriminate].
    cbn [String.length Js.drop]. rewrite append_cons. f_equal. apply IH, H.
Qed.

Lemma prefix_append (w r x : string) :
  String.prefix w r = true -> String.prefix w (r +:+ x) = true.
Proof.
  revert r. induction w as [|c w IH]; intros r H;
    [destruct (r +:+ x); reflexivity|].
  destruct r as [|c' r]; [discriminate|]. rewrite append_cons. cbn in *.
  destruct (ascii_dec c c'); [apply IH, H | discriminate].
Qed.

Lemma strip1_Some (ws : list string) (s r : string) :
  Js.strip1 ws s = Some r -> exists w, In w ws /\ s = w +:+ r.
Proof.
  unfold Js.strip1. destruct (find _ ws) as [w|] eqn:E; [|discriminate].
  intros [= <-]. apply find_some in E as [Hin Hp].
  exists w. split; [exact Hin | apply prefix_split, Hp].
Qed.

Lemma strip1_None_prefix (ws : list string) (r x : string) :
  Js.strip1 ws (r +:+ x) = None -> Js.strip1 ws r = None.
Proof.
  unfold Js.strip1.
  destruct (find _ ws) as [w|] eqn:E; [discriminate|]. intros _.
  destruct (find (fun w => String.prefix w r) ws) as [w|] eqn:E'; [|reflexivity].
  apply find_some in E' as [Hin Hp].
  pose proof (find_none _ _ E w Hin) as Hn. cbn in Hn.
  rewrite (prefix_append w r x Hp) in Hn. discriminate.
Qed.

Lemma strip_fixed (ws : list string) (fuel : nat) (s : string) :
  Js.strip1 ws s = None -> Js.strip ws fuel s = s.
Proof. intros H. destruct fuel; cbn; [|rewrite H]; reflexivity. Qed.

Lemma strip_suffix (ws : list string) (fuel : nat) (s : string) :
  exists p, s = p +:+ Js.strip ws fuel s.
Proof.
  revert s. induction fuel as [|fuel IH]; intros s; [exists EmptyString; reflexivity|].
  cbn. destruct (Js.strip1 ws s) as [r|] eqn:E; [|exists EmptyString; reflexivity].
  apply strip1_Some in E as (w & _ & ->).
  destruct (IH r) as [p Hp]. exists (w +:+ p).
  rewrite append_assoc, <- Hp. reflexivity.
Qed.

Lemma strip_done (ws : list string) (fuel : nat) (s : string) :
  Forall (fun w => w <> EmptyString) ws ->
  (String.length s <= fuel)%nat ->
  Js.strip1 ws (Js.strip ws fuel s) = None.
Proof.
  intros Hne. revert s. induction fuel as [|fuel IH]; intros s Hlen.
  - destruct s; [|cbn in Hlen; lia]. cbn.
    destruct (Js.strip1 ws EmptyString) as [r|] eqn:E; [|reflexivity].
    apply strip1_Some in E as (w & Hin & Hw).
    apply list_elem_of_In in Hin. rewrite Forall_forall in Hne. apply Hne in Hin.
    destruct w; [congruence | discriminate].
  - cbn. destruct (Js.strip1 ws s) as [r|] eqn:E; [|exact E].
    apply IH. apply strip1_Some in E as (w & Hin & ->).
    apply list_elem_of_In in Hin. rewrite Forall_forall in Hne. apply Hne in Hin.
    rewrite length_append in Hlen. destruct w; [congruence|]. cbn in Hlen. lia.
Qed.

Lemma white_space_nonempty :
  Forall (fun w => w <> EmptyString) Js.white_space /\
  Forall (fun w => w <> EmptyString) (map Js.rev Js.white_space).
Proof. split; vm_compute; repeat constructor; discriminate. Qed.

(** [trim] is idempotent. *)
Lemma trim_idempotent (s : string) : Js.trim (Js.trim s) = Js.trim s.
Proof.
  destruct white_space_nonempty as [Hws Hwsr].
  pose (t := Js.trimStart s).
  pose (u := Js.strip (map Js.rev Js.white_space) (String.length t) (Js.rev t)).
  assert (Er : Js.trim s = Js.rev u) by reflexivity.
  assert (Ht : Js.strip1 Js.white_space t = None)
    by (apply strip_done; [exact Hws | reflexivity]).
  assert (Hu : Js.strip1 (map Js.rev Js.white_space) u = None)
    by (apply strip_done; [exact Hwsr | rewrite length_rev; reflexivity]).
  destruct (strip_suffix (map Js.rev Js.white_space) (String.length t) (Js.rev t))
    as [p Hp]. fold u in Hp.
  assert (Et : t = Js.rev u +:+ Js.rev p)
    by (rewrite <- rev_app, <- Hp, rev_involutive; reflexivity).
  rewrite Et in Ht. apply strip1_None_prefix in Ht.
  rewrite Er. clearbody u. clear - Ht Hu.
  unfold Js.trim, Js.trimStart. rewrite (strip_fixed _ _ _ Ht).
  unfold Js.trimEnd. rewrite rev_involutive, (strip_fixed _ _ _ Hu). reflexivity.
Qed.

Lemma occurs_append (c : ascii) (a b : string) :
  occurs c (a +:+ b) = occurs c a || occurs c b.
Proof.
  induction a as [|x a IH]; [reflexivity|].
  rewrite append_cons. cbn [occurs]. rewrite IH. apply orb_assoc.
Qed.

Lemma occurs_rev (c : ascii) (s : string) : occurs c (Js.rev s) = occurs c s.
Proof.
  induction s as [|x s IH]; [reflexivity|].
  change (occurs c (Js.rev_acc s (String x EmptyString)) = occurs c (String x s)).
  rewrite rev_acc_app, occurs_append, IH. cbn.
  rewrite orb_false_r. apply orb_comm.
Qed.

Lemma strip_keeps (ws : list string) (c : ascii) (fuel : nat) (s : string) :
  forallb (fun w => negb (occurs c w)) ws = true ->
  occurs c s = true -> occurs c (Js.strip ws fuel s) = true.
Proof.
  intros Hws. revert s. induction fuel as [|fuel IH]; intros s Hc; [exact Hc|].
  cbn. destruct (Js.strip1 ws s) as [r|] eqn:E; [|exact Hc].
  apply IH. apply strip1_Some in E as (w & Hin & ->).
  rewrite occurs_append in Hc.
  rewrite forallb_forall in Hws. apply Hws in Hin.
  apply negb_true_iff in Hin. rewrite Hin in Hc. exact Hc.
Qed.

(** A printable character occurs in no white-space sequence. *)
Lemma printable_not_white (c : ascii) :
  printable c = true ->
  forallb (fun w => negb (occurs c w)) Js.white_space = true /\
  forallb (fun w => negb (occurs c w)) (map Js.rev Js.white_space) = true.
Proof.
  destruct c as [[] [] [] [] [] [] [] []]; vm_compute; intros H;
    try discriminate H; split; reflexivity.
Qed.

(** A string with a printable character does not trim to the empty
    string. *)
Lemma trim_keeps_printable (c : ascii) (s : string) :
  printable c = true -> occurs c s = true -> Js.trim s <> EmptyString.
Proof.
  intros Hp Hc. destruct (printable_not_white c Hp) as [H1 H2].
  assert (H : occurs c (Js.trim s) = true).
  { unfold Js.trim, Js.trimEnd, Js.trimStart.
    rewrite occurs_rev. apply strip_keeps; [exact H2|].
    rewrite occurs_rev. apply strip_keeps; [exact H1 | exact Hc]. }
  intros E. rewrite E in H. discriminate H.
Qed.

End Strings.

(** ** Presentation mapping, continued *)

Ltac split_conditions :=
  repeat match goal with
         | |- context [if ?b then _ else _] => destruct b eqn:?
         end.

Ltac no_partly_cloudy :=
  match goal with
  | H : Js.includes _ "partly cloudy" = true, H' : _ || _ = false |- _ =>
      pose proof (includes_app_r "partly " "cloudy" _ H) as Hcloudy;
      rewrite Hcloudy, orb_true_r in H'; discriminate H'
  end.

(** X2: Icon and background agree on the category of a description: the
    storm, snow, rain and fog icons go with the storm, snow, rain and fog
    gradients, the sun with the clear gradient of the time of day, and the
    cloud with the overcast gradient or the default one. *)
Theorem icon_matches_gradient (description : string) (isDay : bool) :
  let g := getBackgroundGradient description isDay in
  let i := getWeatherIcon description in
  (i = CloudLightning <-> g = "from-gray-800 via-slate-800 to-gray-900") /\
  (i = CloudSnow <-> g = "from-indigo-300 via-blue-200 to-slate-300") /\
  (i = CloudRain <-> g = "from-slate-600 via-gray-600 to-slate-800") /\
  (i = CloudFog <-> g = "from-gray-400 via-slate-400 to-gray-500") /\
  (i = Sun <-> g = (if isDay then "from-blue-400 via-sky-400 to-blue-600"
                    else "from-indigo-900 via-purple-900 to-slate-900")) /\
  (i = Cloud <-> g = "from-slate-700 via-gray-700 to-slate-900"
                 \/ g = (if isDay then "from-sky-500 via-blue-500 to-cyan-500"
                         else "from-slate-800 via-indigo-900 to-gray-900")).
Proof.
  unfold getBackgroundGradient, getWeatherIcon.
  split_conditions; try no_partly_cloudy;
    repeat split; intros; try discriminate; try reflexivity;
    try (left; reflexivity); try (right; reflexivity);
    match goal with H : _ \/ _ |- _ => destruct H; discriminate end.
Qed.

(** X3: The time of day changes the background exactly when the description
    has none of the storm, snow, rain, fog and cloud keywords. *)
Theorem gradient_day_night (description : string) :
  getBackgroundGradient description true = getBackgroundGradient description false
  <-> existsb (Js.includes (Js.toLowerCase description)) keyed_categories = true.
Proof.
  unfold getBackgroundGradient, keyed_categories. cbn [existsb].
  split_conditions; try no_partly_cloudy;
    repeat match goal with
           | H : _ || _ = true |- _ => apply orb_true_iff in H as [H|H]
           | H : _ || _ = false |- _ => apply orb_false_iff in H as [? ?]
           end;
    repeat match goal with H : Js.includes _ _ = _ |- _ => rewrite H; clear H end;
    rewrite ?orb_true_r; cbn; split; intros; try reflexivity; discriminate.
Qed.

(** X4: Both revisions of [getUvLabel] give the same label at every index,
    and within a revision two indices have the same colour exactly when
    they have the same label. *)
Theorem uv_label_and_color (rev : revision) (a b : Z) :
  label (getUvLabel Rev1 a) = label (getUvLabel Rev2 a) /\
  (color (getUvLabel rev a) = color (getUvLabel rev b)
   <-> label (getUvLabel rev a) = label (getUvLabel rev b)).
Proof.
  split.
  - unfold getUvLabel. split_conditions; reflexivity.
  - destruct rev; unfold getUvLabel; split_conditions; cbn;
      split; intros; try reflexivity; discriminate.
Qed.

(** X5: The comments under the humidity, visibility and pressure cards: the
    humidity bounds are strict (70 is still "Comfortable", 40 is "Dry
    air"), the visibility and pressure bounds are inclusive. *)
Theorem reading_comments (n : Z) :
  (humidity_comment n = "High moisture" <-> 70 < n) /\
  (humidity_comment n = "Comfortable" <-> 40 < n <= 70) /\
  (humidity_comment n = "Dry air" <-> n <= 40) /\
  (visibility_comment n = "Crystal clear" <-> 10 <= n) /\
  (visibility_comment n = "Good" <-> 5 <= n < 10) /\
  (visibility_comment n = "Poor visibility" <-> n < 5) /\
  (pressure_comment n = "High pressure" <-> 1013 <= n) /\
  (pressure_comment n = "Low pressure" <-> n < 1013).
Proof.
  unfold humidity_comment, visibility_comment, pressure_comment.
  repeat match goal with
         | |- context [?a <? ?b] => destruct (Z.ltb_spec a b)
         | |- context [?a <=? ?b] => destruct (Z.leb_spec a b)
         end;
    repeat split; intros; try lia; try discriminate; reflexivity.
Qed.

(** Without a payload a render completes, with the skeleton while
    loading and the placeholder otherwise. *)
Lemma render_without_payload (rev : revision) (s : state) :
  weather s = None ->
  render rev s = Normal {| skeleton := loading s; data_view := false;
                           placeholder := negb (loading s) |}.
Proof. intros H. unfold render. rewrite H. destruct rev; reflexivity. Qed.

(** X6: The JSX returned by a render that completes (the derived values
    and the property reads of the data block do not throw) contains
    exactly one of the three blocks: the skeleton while loading, otherwise
    the data block for a truthy payload and the placeholder without one. *)
Theorem exactly_one_panel (rev : revision) (s : state) (p : panels) :
  render rev s = Normal p ->
  (skeleton p = true /\ data_view p = false /\ placeholder p = false /\ loading s = true)
  \/ (skeleton p = false /\ data_view p = true /\ placeholder p = false
      /\ loading s = false /\ truthy (weather s) = true)
  \/ (skeleton p = false /\ data_view p = false /\ placeholder p = true
      /\ loading s = false /\ truthy (weather s) = false).
Proof.
  unfold render.
  destruct (derived rev (weather s)) as [d|e]; cbn [bind]; [|discriminate].
  destruct (loading s), (truthy (weather s)); cbn [andb negb bind];
    try destruct (data_block (weather s)); cbn [bind];
    intros [= <-]; cbn; tauto.
Qed.

Lemma exactly_one_panel_witness :
  render Rev1 showing_state
  = Normal {| skeleton := false; data_view := true; placeholder := false |} /\
  loading showing_state = false /\ truthy (weather showing_state) = true.
Proof.
  split; [reflexivity|].
  destruct (exactly_one_panel Rev1 showing_state
              {| skeleton := false; data_view := true; placeholder := false |} eq_refl)
    as [H | [H | H]].
  - destruct H as (H & _). discriminate H.
  - destruct H as (_ & _ & _ & H1 & H2). split; assumption.
  - destruct H as (_ & H & _). discriminate H.
Defined.

(** ** Toast queue, continued *)

(** X7: [removeToast i] removes every toast with id [i] and no other, keeps
    the order of the rest, and touches nothing but the queue. *)
Theorem removeToast_spec (i : Z) (s : state) :
  (forall t, t ∈ toasts (removeToast i s) <-> t ∈ toasts s /\ id t <> i) /\
  sublist (toasts (removeToast i s)) (toasts s) /\
  (Forall (fun t => id t <> i) (toasts s) -> removeToast i s = s) /\
  weather (removeToast i s) = weather s /\
  loading (removeToast i s) = loading s /\
  query (removeToast i s) = query s /\
  locating (removeToast i s) = locating s /\
  localStorage (removeToast i s) = localStorage s.
Proof.
  split; [|split; [|split]].
  - intros t. unfold removeToast. cbn [toasts setToasts].
    rewrite list_elem_of_filter. tauto.
  - apply sublist_filter.
  - intros H. destruct s as [w l q ts lc ls]. unfold removeToast, setToasts.
    cbn in *. f_equal.
    induction H as [|t ts Ht _ IH]; [reflexivity|].
    rewrite filter_cons_True by exact Ht. f_equal. exact IH.
  - repeat split; reflexivity.
Qed.

(** X8: Closing a toast just added: when no toast of the queue has the id
    [now], adding one at [now] and removing id [now] gives the state back. *)
Theorem add_then_remove (now : Z) (msg : json) (ty : severity) (s : state) :
  Forall (fun t => id t <> now) (toasts s) ->
  removeToast now (addToast now msg ty s) = s.
Proof.
  intros H. destruct s as [w l q ts lc ls].
  unfold removeToast, addToast, setToasts. cbn in *. f_equal.
  rewrite filter_app, filter_cons_False, filter_nil, app_nil_r by (cbn; tauto).
  induction H as [|t ts Ht _ IH]; [reflexivity|].
  rewrite filter_cons_True by exact Ht. f_equal. exact IH.
Qed.

Lemma add_then_remove_witness :
  removeToast 1000 (addToast 1000 (JStr "Location access denied. Please allow location permissions.") warning busy_state)
  = busy_state /\
  map id (toasts busy_state) = [900; 950].
Proof.
  split; [|reflexivity].
  apply (add_then_remove 1000 _ warning busy_state).
  repeat constructor; cbn; lia.
Defined.

(** ** The component as a whole, continued *)

Lemma fetchWeather_begin_facts rev env now q s :
  let s' := fst (fetchWeather_begin rev env now q s) in
  localStorage s' = localStorage s /\
  (toasts s' = toasts s \/
   exists t, id t = now /\ toasts s' = toasts s ++ [t]) /\
  (snd (fetchWeather_begin rev env now q s) = None \/
   Js.trim q <> EmptyString /\
   snd (fetchWeather_begin rev env now q s) = Some (request_url rev env q)).
Proof.
  unfold fetchWeather_begin.
  destruct (Js.nonempty (Js.trim q)) eqn:E; cbn [negb fst snd].
  - apply nonempty_spec in E.
    destruct rev; [destruct (String.eqb _ _)|];
      (split; [reflexivity|]); (split; [|right; split; [exact E|reflexivity]]);
      try (left; reflexivity).
    right. eexists. split; [|reflexivity]. reflexivity.
  - split; [reflexivity|]. split; left; reflexivity.
Qed.

(** What one event does to [localStorage], the requests in flight and
    the toast queue. *)
Lemma step_facts rev env w ev :
  let w' := step rev env w ev in
  (localStorage (ui w') = localStorage (ui w) \/
   exists q, q ∈ inflight w /\
     localStorage (ui w') = <["weather_last_city" := Js.trim q]> (localStorage (ui w))) /\
  (forall q, q ∈ inflight w' -> q ∈ inflight w \/ Js.trim q <> EmptyString) /\
  (sublist (toasts (ui w')) (toasts (ui w)) \/
   exists t, id t = fst ev /\ toasts (ui w') = toasts (ui w) ++ [t]).
Proof.
  destruct ev as [now ev]. unfold step. cbn [fst snd].
  assert (Hbegin : forall q s fl,
    let r := fetchWeather_begin rev env now q s in
    let fl' := match snd r with Some _ => fl ++ [q] | None => fl end in
    (localStorage (fst r) = localStorage s) /\
    (forall q', q' ∈ fl' -> q' ∈ fl \/ Js.trim q' <> EmptyString) /\
    (sublist (toasts (fst r)) (toasts s) \/
     exists t, id t = now /\ toasts (fst r) = toasts s ++ [t])).
  { intros q s fl.
    destruct (fetchWeather_begin_facts rev env now q s) as (Hl & Ht & Hr).
    cbv zeta. split; [exact Hl|]. split.
    - destruct Hr as [-> | [Hq ->]]; intros q' Hin; [left; exact Hin|].
      apply elem_of_app in Hin as [Hin|Hin]; [left; exact Hin|].
      apply list_elem_of_singleton in Hin. subst q'. right. exact Hq.
    - destruct Ht as [-> | Ht]; [left; reflexivity | right; exact Ht]. }
  destruct ev as [| text | | | lat lon | | n r wr | i].
  - unfold begin_fetch. cbn [ui inflight].
    specialize (Hbegin (initial_query (ui w))
                  (setQuery (initial_query (ui w)) (ui w)) (inflight w)).
    destruct (fetchWeather_begin _ _ _ _ _) as [s' req]. cbn in Hbegin |- *.
    destruct Hbegin as (Hl & Hi & Ht). split; [left; exact Hl|]. split; assumption.
  - cbn. split; [left; reflexivity|]. split; [intros; left; assumption|left; reflexivity].
  - unfold begin_fetch.
    specialize (Hbegin (query (ui w)) (ui w) (inflight w)).
    destruct (fetchWeather_begin _ _ _ _ _) as [s' req]. cbn in Hbegin |- *.
    destruct Hbegin as (Hl & Hi & Ht). split; [left; exact Hl|]. split; assumption.
  - unfold handleLocateMe. destruct (negb _); cbn;
      (split; [left; reflexivity|]); (split; [intros; left; assumption|]).
    + right. eexists. split; [|reflexivity]. reflexivity.
    + left. reflexivity.
  - unfold located.
    specialize (Hbegin (lat +:+ "," +:+ lon)
                  (setQuery (lat +:+ "," +:+ lon) (ui w)) (inflight w)).
    destruct (fetchWeather_begin _ _ _ _ _) as [s' req]. cbn in Hbegin |- *.
    destruct Hbegin as (Hl & Hi & Ht). split; [left; exact Hl|]. split; assumption.
  - cbn. split; [left; reflexivity|]. split; [intros; left; assumption|].
    right. eexists. split; [|reflexivity]. reflexivity.
  - destruct (inflight w !! n) as [q|] eqn:E; cbn [ui inflight].
    + pose proof (fetchWeather_resume_effect rev now q r wr (ui w)) as H. cbv zeta in H.
      split; [|split].
      * destruct (accepted r); [destruct wr|]; destruct H as (Hl & _ & _);
          [right; exists q; split; [eapply list_elem_of_lookup_2, E | exact Hl]
          |left; exact Hl|left; exact Hl].
      * intros q' Hin. left. eapply list_elem_of_delete_inv, Hin.
      * destruct (accepted r); [destruct wr|]; destruct H as (_ & _ & Ht).
        -- left. rewrite Ht. reflexivity.
        -- right. eexists. split; [|exact Ht]. reflexivity.
        -- right. destruct Ht as [m Ht]. eexists. split; [|exact Ht]. reflexivity.
    + split; [left; reflexivity|]. split; [intros; left; assumption|left; reflexivity].
  - cbn. split; [left; reflexivity|]. split; [intros; left; assumption|].
    left. apply sublist_filter.
Qed.

Lemma run_snoc rev env trace ev w :
  run rev env (trace ++ [ev]) w = step rev env (run rev env trace w) ev.
Proof. unfold run. rewrite fold_left_app. reflexivity. Qed.

Lemma sublist_StronglySorted (l k : list Z) :
  sublist l k -> StronglySorted Z.le k -> StronglySorted Z.le l.
Proof.
  induction 1 as [|x l k Hs IH|x l k Hs IH]; intros Hk.
  - constructor.
  - inversion Hk as [|? ? Hk' Hx]; subst. constructor; [apply IH, Hk'|].
    rewrite Forall_forall in Hx |- *. intros y Hy. apply Hx.
    eapply elem_of_sublist; eassumption.
  - inversion Hk; subst. apply IH. assumption.
Qed.

(** X9: The ids of the queue, oldest first, are a subsequence of the clock
    readings of the events so far; so with a clock that does not go back
    the ids never decrease along the queue. *)
Theorem toast_ids_follow_clock (rev : revision) (env : browser)
    (stored : gmap string string) (trace : list (Z * event)) :
  let w := run rev env trace (fresh stored) in
  sublist (map id (toasts (ui w))) (map fst trace) /\
  (StronglySorted Z.le (map fst trace) ->
   StronglySorted Z.le (map id (toasts (ui w)))).
Proof.
  cbv zeta.
  assert (H : sublist (map id (toasts (ui (run rev env trace (fresh stored)))))
                      (map fst trace)).
  { induction trace as [|ev trace IH] using rev_ind; [constructor|].
    rewrite run_snoc, map_app. cbn [map].
    destruct (step_facts rev env (run rev env trace (fresh stored)) ev)
      as (_ & _ & [Hs | (t & Hid & Ht)]).
    - apply sublist_inserts_r. etransitivity; [|exact IH].
      apply (fmap_sublist id), Hs.
    - rewrite Ht, map_app. cbn [map]. rewrite Hid.
      apply sublist_app; [exact IH | reflexivity]. }
  split; [exact H | apply sublist_StronglySorted, H].
Qed.

(** X10: The component writes one key of [localStorage], and what it writes
    there is a trimmed query that is not empty: every other key keeps the
    value it had when the component was mounted. *)
Theorem storage_frame (rev : revision) (env : browser)
    (stored : gmap string string) (trace : list (Z * event)) :
  let w := run rev env trace (fresh stored) in
  (forall k, k <> "weather_last_city" -> localStorage (ui w) !! k = stored !! k) /\
  (localStorage (ui w) !! "weather_last_city" = stored !! "weather_last_city" \/
   exists q, Js.trim q <> EmptyString /\
     localStorage (ui w) !! "weather_last_city" = Some (Js.trim q)).
Proof.
  cbv zeta.
  enough (H : let w := run rev env trace (fresh stored) in
    ((forall k, k <> "weather_last_city" -> localStorage (ui w) !! k = stored !! k) /\
     (localStorage (ui w) !! "weather_last_city" = stored !! "weather_last_city" \/
      exists q, Js.trim q <> EmptyString /\
        localStorage (ui w) !! "weather_last_city" = Some (Js.trim q))) /\
    (forall q, q ∈ inflight w -> Js.trim q <> EmptyString)) by apply H.
  induction trace as [|ev trace IH] using rev_ind.
  - cbn. split; [split; [reflexivity | left; reflexivity]|].
    intros q Hq. inversion Hq.
  - rewrite run_snoc. cbv zeta in IH |- *.
    destruct IH as ((Hother & Hkey) & Hfl).
    destruct (step_facts rev env (run rev env trace (fresh stored)) ev)
      as (Hl & Hi & _).
    split.
    + destruct Hl as [-> | (q & Hq & ->)]; [split; assumption|]. split.
      * intros k Hk. rewrite lookup_insert_ne by congruence. apply Hother, Hk.
      * right. exists q. split; [apply Hfl, Hq | apply lookup_insert_eq].
    + intros q Hq. destruct (Hi q Hq) as [Hold | Hne]; [apply Hfl, Hold | exact Hne].
Qed.

(** ** Fetch and classification, continued *)

Lemma step_settled rev env w now n r wr q :
  inflight w !! n = Some q ->
  step rev env w (now, Settled n r wr)
  = {| ui := fetchWeather_resume rev now q r wr (ui w);
       inflight := delete n (inflight w) |}.
Proof. intros H. unfold step. cbn [fst snd]. rewrite H. reflexivity. Qed.

(** X11: Nothing ties a response to the latest search: when two requests
    are in flight and the older one settles last, both with a payload, the
    older payload is the one shown, whatever became of the two writes; and
    if the write of the older one goes through, the older query is the one
    persisted. *)
Theorem last_settled_wins (rev : revision) (env : browser) (w : system)
    (q1 q2 : string) (d1 d2 : json) (t1 t2 : Z) (wr1 wr2 : storage_write) :
  inflight w = [q1; q2] ->
  accepted (Parsed d1) = Some d1 ->
  accepted (Parsed d2) = Some d2 ->
  let w' := run rev env [ (t1, Settled 1 (Parsed d2) wr2);
                          (t2, Settled 0 (Parsed d1) wr1) ] w in
  weather (ui w') = Some d1 /\
  loading (ui w') = false /\ inflight w' = [] /\
  (wr1 = WriteOk ->
   localStorage (ui w') !! "weather_last_city" = Some (Js.trim q1)).
Proof.
  intros Hfl H1 H2. unfold run. cbn [fold_left].
  rewrite (step_settled rev env w t1 1 (Parsed d2) wr2 q2) by (rewrite Hfl; reflexivity).
  rewrite (step_settled rev env _ t2 0 (Parsed d1) wr1 q1)
    by (cbn [inflight]; rewrite Hfl; reflexivity).
  cbn [ui inflight]. rewrite Hfl.
  pose proof (fetchWeather_resume_effect rev t2 q1 (Parsed d1) wr1
                (fetchWeather_resume rev t1 q2 (Parsed d2) wr2 (ui w))) as H.
  cbv zeta in H. rewrite H1 in H.
  destruct wr1 as [|e]; destruct H as (Hl & Hw & _);
    (split; [exact Hw|]); (split; [reflexivity|]); (split; [reflexivity|]).
  - intros _. rewrite Hl. apply lookup_insert_eq.
  - intros [=].
Qed.

Lemma last_settled_wins_witness :
  let w' := run Rev2 sample_browser
              [ (1700, Settled 1 (Parsed (JObj [("location", JStr "Oslo")])) WriteOk);
                (1900, Settled 0 (Parsed (JObj [("location", JStr "Paris")])) WriteOk) ]
              crossing_state in
  weather (ui w') = Some (JObj [("location", JStr "Paris")]) /\
  loading (ui w') = false /\ inflight w' = [] /\
  (WriteOk = WriteOk ->
   localStorage (ui w') !! "weather_last_city" = Some "Paris").
Proof.
  apply (last_settled_wins Rev2 sample_browser crossing_state "Paris" "Oslo"
           (JObj [("location", JStr "Paris")]) (JObj [("location", JStr "Oslo")])
           1700 1900 WriteOk WriteOk); reflexivity.
Defined.

(** X12: A body that is [null], or that says [success: false] without an
    [error] object, makes a property read throw: it ends in the [catch]
    block, with the toast of a failed request and nothing stored. *)
Theorem malformed_body_is_a_failure (now : Z) (q : string) (data : json)
    (wr : storage_write) (s : state) :
  data = JNull \/
  (prop (Some data) "success" = Normal (Some (JBool false)) /\
   (prop (Some data) "error" = Normal None \/
    prop (Some data) "error" = Normal (Some JNull))) ->
  fetchWeather_resume Rev2 now q (Parsed data) wr s
  = setLoading false
      (addToast now (JStr "Failed to fetch weather data. Please try again.") error s).
Proof.
  intros [-> | [Hs He]]; [reflexivity|].
  unfold fetchWeather_resume, try_body. rewrite Hs. cbn [is_false].
  unfold api_error. destruct He as [-> | ->]; reflexivity.
Qed.

Lemma malformed_body_is_a_failure_witness :
  fetchWeather_resume Rev2 1000 "Paris" (Parsed bare_failure) WriteOk sample_state
  = setLoading false
      (addToast 1000 (JStr "Failed to fetch weather data. Please try again.") error
         sample_state).
Proof.
  apply (malformed_body_is_a_failure 1000 "Paris" bare_failure WriteOk sample_state).
  right. split; [reflexivity | left; reflexivity].
Defined.

(** X13: A well-formed query (one without lone surrogates, on which
    [encodeURIComponent] cannot throw) with at least one printable
    character other than the space is never short-circuited: the request
    is made for it, the loading flag is set and the payload cleared. *)
Theorem nonblank_query_is_fetched (rev : revision) (env : browser) (now : Z)
    (q : string) (s : state) (c : ascii) :
  well_formed q = true ->
  printable c = true -> occurs c q = true ->
  snd (fetchWeather_begin rev env now q s) = Some (request_url rev env q) /\
  loading (fst (fetchWeather_begin rev env now q s)) = true /\
  weather (fst (fetchWeather_begin rev env now q s)) = None.
Proof.
  intros _ Hp Hc. pose proof (trim_keeps_printable c q Hp Hc) as Hq.
  apply nonempty_spec in Hq. unfold fetchWeather_begin. rewrite Hq. cbn [negb fst snd].
  destruct rev; [destruct (String.eqb _ _)|]; repeat split; reflexivity.
Qed.

Lemma nonblank_query_is_fetched_witness :
  snd (fetchWeather_begin Rev2 sample_browser 1000 "  Oslo" sample_state)
  = Some (request_url Rev2 sample_browser "  Oslo") /\
  loading (fst (fetchWeather_begin Rev2 sample_browser 1000 "  Oslo" sample_state)) = true /\
  weather (fst (fetchWeather_begin Rev2 sample_browser 1000 "  Oslo" sample_state)) = None.
Proof.
  apply (nonblank_query_is_fetched Rev2 sample_browser 1000 "  Oslo" sample_state "O");
    reflexivity.
Defined.

Lemma encodeURIComponent_app (a b : string) :
  Js.encodeURIComponent (a +:+ b)
  = Js.encodeURIComponent a +:+ Js.encodeURIComponent b.
Proof.
  induction a as [|c a IH]; [reflexivity|].
  rewrite append_cons. cbn [Js.encodeURIComponent]. rewrite IH.
  destruct (Js.uri_unreserved c); reflexivity.
Qed.

(** X14: The success callback of the geolocation request always starts a
    fetch: the query becomes [lat,lon], its request is made with the comma
    encoded as [%2C], and the locating flag is cleared. *)
Theorem located_starts_fetch (rev : revision) (env : browser) (now : Z)
    (lat lon : string) (s : state) :
  let coords := lat +:+ "," +:+ lon in
  located rev env now lat lon s
  = (setLocating false (fst (fetchWeather_begin rev env now coords (setQuery coords s))),
     Some (request_url rev env coords), coords) /\
  query (fst (fst (located rev env now lat lon s))) = coords /\
  locating (fst (fst (located rev env now lat lon s))) = false /\
  loading (fst (fst (located rev env now lat lon s))) = true /\
  Js.encodeURIComponent coords
  = Js.encodeURIComponent lat +:+ "%2C" +:+ Js.encodeURIComponent lon.
Proof.
  cbv zeta.
  assert (Hq : Js.nonempty (Js.trim (lat +:+ "," +:+ lon)) = true).
  { apply nonempty_spec, (trim_keeps_printable ","); [reflexivity|].
    rewrite !occurs_append. cbn. apply orb_true_r. }
  unfold located, fetchWeather_begin. rewrite Hq. cbn [negb].
  split; [|split; [|split; [|split]]].
  - reflexivity.
  - destruct rev; [destruct (String.eqb _ _)|]; reflexivity.
  - reflexivity.
  - destruct rev; [destruct (String.eqb _ _)|]; reflexivity.
  - rewrite !encodeURIComponent_app. reflexivity.
Qed.

(** X15: The mount effect: with nothing saved, or an empty string, the query
    becomes "London" and a fetch for it begins; a saved value that is not
    empty becomes the query, and is fetched unless it trims to nothing. *)
Theorem mount_restores_or_defaults (rev : revision) (env : browser) (now : Z)
    (w : system) :
  let w' := step rev env w (now, Mount) in
  let saved := localStorage (ui w) !! "weather_last_city" in
  (saved = None \/ saved = Some EmptyString ->
   query (ui w') = "London" /\ inflight w' = inflight w ++ ["London"] /\
   loading (ui w') = true) /\
  (forall city, saved = Some city -> city <> EmptyString ->
   query (ui w') = city /\
   (Js.trim city <> EmptyString ->
    inflight w' = inflight w ++ [city] /\ loading (ui w') = true) /\
   (Js.trim city = EmptyString -> inflight w' = inflight w /\ ui w' = setQuery city (ui w))).
Proof.
  cbv zeta. unfold step. cbn [fst snd]. unfold initial_query. split.
  - intros [-> | ->]; cbn [Js.nonempty];
      unfold begin_fetch, fetchWeather_begin;
      change (Js.nonempty (Js.trim "London")) with true; cbn [negb ui inflight];
      destruct rev; [destruct (String.eqb _ _)| | destruct (String.eqb _ _)|];
      repeat split; reflexivity.
  - intros city -> Hc. apply nonempty_spec in Hc. rewrite Hc.
    unfold begin_fetch, fetchWeather_begin. cbn [ui inflight].
    destruct (Js.nonempty (Js.trim city)) eqn:E; cbn [negb].
    + destruct rev; [destruct (String.eqb _ _)|];
        (split; [reflexivity|]);
        (split; [intros _; split; reflexivity|]);
        intros E'; rewrite E' in E; discriminate.
    + split; [reflexivity|]. split.
      * intros E'. apply nonempty_spec in E'. congruence.
      * intros _. split; reflexivity.
Qed.

(** X16: Persisting and restoring compose: mounting the component over
    the [localStorage] left by a successful fetch of [q] whose write went
    through makes the trimmed [q] the query and begins a fetch for it. *)
Theorem persisted_city_is_restored (rev : revision) (env : browser)
    (now now' : Z) (q : string) (data : json) (wr : storage_write) (s : state) :
  Js.trim q <> EmptyString ->
  accepted (Parsed data) = Some data ->
  wr = WriteOk ->
  let s' := fetchWeather_resume rev now q (Parsed data) wr s in
  let w' := step rev env (fresh (localStorage s')) (now', Mount) in
  query (ui w') = Js.trim q /\ inflight w' = [Js.trim q] /\ loading (ui w') = true.
Proof.
  intros Hq Ha ->. cbv zeta.
  pose proof (fetchWeather_resume_effect rev now q (Parsed data) WriteOk s) as H.
  cbv zeta in H. rewrite Ha in H. destruct H as (Hl & _ & _).
  unfold step. cbn [fst snd]. unfold initial_query. cbn [ui fresh localStorage].
  rewrite Hl, lookup_insert_eq.
  pose proof Hq as Hq'. apply nonempty_spec in Hq'. rewrite Hq'.
  unfold begin_fetch, fetchWeather_begin. cbn [ui inflight].
  rewrite trim_idempotent, Hq'. cbn [negb].
  destruct rev; [destruct (String.eqb _ _)|]; repeat split; reflexivity.
Qed.

Lemma persisted_city_is_restored_witness :
  let s' := fetchWeather_resume Rev2 1000 " Oslo " (Parsed (JObj [("current", JObj [])]))
              WriteOk sample_state in
  let w' := step Rev2 sample_browser (fresh (localStorage s')) (5000, Mount) in
  query (ui w') = "Oslo" /\ inflight w' = ["Oslo"] /\ loading (ui w') = true.
Proof.
  apply (persisted_city_is_restored Rev2 sample_browser 1000 5000 " Oslo "
           (JObj [("current", JObj [])]) WriteOk sample_state).
  - vm_compute. congruence.
  - reflexivity.
  - reflexivity.
Defined.

(** ** Request URLs *)

Lemma hex_digits_unreserved (c : ascii) :
  Js.uri_unreserved (Js.hex_digit (Js.code c / 16)) = true /\
  Js.uri_unreserved (Js.hex_digit (Js.code c mod 16)) = true.
Proof. destruct c as [[] [] [] [] [] [] [] []]; vm_compute; split; reflexivity. Qed.

(** The two digits of an escape determine the byte. *)
Lemma hex_digits_inj (c c' : ascii) :
  Js.hex_digit (Js.code c / 16) = Js.hex_digit (Js.code c' / 16) ->
  Js.hex_digit (Js.code c mod 16) = Js.hex_digit (Js.code c' mod 16) ->
  c = c'.
Proof.
  pose (unhex := fun a : ascii =>
          (if Js.code a <? 58 then Js.code a - 48 else Js.code a - 55)%N).
  assert (H : forall x : ascii,
             ascii_of_N (16 * unhex (Js.hex_digit (Js.code x / 16))
                         + unhex (Js.hex_digit (Js.code x mod 16))) = x)
    by (intros [[] [] [] [] [] [] [] []]; vm_compute; reflexivity).
  intros H1 H2. rewrite <- (H c), <- (H c'), H1, H2. reflexivity.
Qed.

Lemma percent_reserved : Js.uri_unreserved "%" = false.
Proof. reflexivity. Qed.

Lemma encodeURIComponent_inj (a b : string) :
  Js.encodeURIComponent a = Js.encodeURIComponent b -> a = b.
Proof.
  revert b. induction a as [|c a IH]; intros [|c' b] H; cbn [Js.encodeURIComponent] in H.
  - reflexivity.
  - destruct (Js.uri_unreserved c'); discriminate H.
  - destruct (Js.uri_unreserved c); discriminate H.
  - destruct (Js.uri_unreserved c) eqn:Ec, (Js.uri_unreserved c') eqn:Ec'.
    + injection H as -> H. f_equal. apply IH, H.
    + injection H as -> _. rewrite percent_reserved in Ec. discriminate.
    + injection H as <- _. rewrite percent_reserved in Ec'. discriminate.
    + injection H as H1 H2 H. f_equal; [|apply IH, H].
      apply hex_digits_inj; [exact H1 | exact H2].
Qed.

Lemma append_inv_head (p a b : string) : p +:+ a = p +:+ b -> a = b.
Proof.
  induction p as [|c p IH]; intros H; [exact H|].
  rewrite !append_cons in H. injection H as H. apply IH, H.
Qed.

(** X17: What the query contributes to a request URL consists of unreserved
    characters and percent escapes only, so it cannot add a parameter or a
    fragment; and two different queries never give the same URL. *)
Theorem request_url_is_faithful (rev : revision) (env : browser) (q q' : string) :
  (exists base, request_url rev env q = base +:+ Js.encodeURIComponent q /\
                request_url rev env q' = base +:+ Js.encodeURIComponent q') /\
  (forall c, occurs c (Js.encodeURIComponent q) = true ->
             Js.uri_unreserved c = true \/ c = "%"%char) /\
  (request_url rev env q = request_url rev env q' -> q = q').
Proof.
  assert (Hbase : exists base,
             request_url rev env q = base +:+ Js.encodeURIComponent q /\
             request_url rev env q' = base +:+ Js.encodeURIComponent q').
  { unfold request_url, direct_url, proxy_url.
    destruct rev; [|destruct (isLocal env)].
    1,2: exists ("http://api.weatherstack.com/current?access_key="
                 +:+ interpolate (API_KEY env) +:+ "&query=");
         rewrite !append_assoc; split; reflexivity.
    exists "/api/weather?query=". split; reflexivity. }
  split; [exact Hbase|]. split.
  - clear Hbase. induction q as [|x q IH]; intros c Hc; [discriminate Hc|].
    cbn [Js.encodeURIComponent] in Hc.
    destruct (Js.uri_unreserved x) eqn:Ex; cbn [occurs] in Hc;
      repeat match type of Hc with
             | _ || _ = true => apply orb_true_iff in Hc as [Hc|Hc]
             end;
      try (apply IH, Hc); apply Ascii.eqb_eq in Hc; subst c.
    + left. exact Ex.
    + right. reflexivity.
    + left. apply hex_digits_unreserved.
    + left. apply hex_digits_unreserved.
  - destruct Hbase as (base & -> & ->). intros H.
    apply append_inv_head in H. apply encodeURIComponent_inj, H.
Qed.

(** ** The proxy endpoint, continued *)

(** X18: For a query and a key that are not empty, the proxy fetches the very
    URL the dashboard fetches on a development machine holding that key. *)
Theorem proxy_builds_client_url (q k : string) :
  q <> EmptyString -> k <> EmptyString ->
  exists answer,
    handler (Some (One q)) (Some k)
    = Upstream (request_url Rev2 (local_browser (Some k)) q) answer.
Proof.
  intros Hq Hk. apply nonempty_spec in Hq, Hk.
  unfold handler. cbn [param_truthy]. rewrite Hq, Hk. cbn [negb].
  eexists. reflexivity.
Qed.

Lemma proxy_builds_client_url_witness :
  exists answer,
    handler (Some (One "New York")) (Some "k3y")
    = Upstream "http://api.weatherstack.com/current?access_key=k3y&query=New%20York"
               answer.
Proof.
  apply (proxy_builds_client_url "New York" "k3y"); discriminate.
Defined.

(** X19: The handler answers with one of four statuses, and sets the
    [Cache-Control] header on the 200 answer only: its own error answers
    carry no header, while a relayed upstream answer is cacheable whatever
    its body says. *)
Theorem proxy_caches_only_relays (query : option param) (key : option string)
    (r : fetch_result) :
  let resp := respond (handler query key) r in
  (status resp = 200 \/ status resp = 400 \/ status resp = 500 \/ status resp = 502) /\
  (status resp = 200 <->
   headers resp = [("Cache-Control", "s-maxage=300, stale-while-revalidate=600")]) /\
  (status resp <> 200 <-> headers resp = []) /\
  (status resp = 200 <-> exists data, r = Parsed data /\ body resp = data /\
                           param_truthy query = true /\ key_configured key = true).
Proof.
  unfold handler, key_configured.
  destruct (param_truthy query); cbn [negb];
    [destruct key as [k|]; [destruct (Js.nonempty k)|]; cbn [negb]; [destruct r| |]|];
    cbn [respond status headers body];
    (split; [tauto|]); (split; [split; intros; congruence|]);
    (split; [split; intros; congruence|]);
    split; intros H; try reflexivity; try discriminate H;
    try (destruct H as (d & Hd & _); discriminate Hd);
    try (destruct H as (d & _ & _ & Hd & _); discriminate Hd);
    try (destruct H as (d & _ & _ & _ & Hd); discriminate Hd).
  eexists. repeat split; reflexivity.
Qed.

(** X20: The answer does not depend on which key is configured: two keys that
    are both set give the same status, headers and body. *)
Theorem proxy_answer_hides_key (query : option param) (k1 k2 : string)
    (r : fetch_result) :
  k1 <> EmptyString -> k2 <> EmptyString ->
  respond (handler query (Some k1)) r = respond (handler query (Some k2)) r.
Proof.
  intros H1 H2. apply nonempty_spec in H1, H2.
  unfold handler. rewrite H1, H2.
  destruct (param_truthy query); reflexivity.
Qed.

Lemma proxy_answer_hides_key_witness :
  respond (handler (Some (One "Paris")) (Some "k3y")) (FetchRejected failed_to_fetch)
  = respond (handler (Some (One "Paris")) (Some "another")) (FetchRejected failed_to_fetch).
Proof.
  apply (proxy_answer_hides_key (Some (One "Paris")) "k3y" "another"); discriminate.
Defined.

(** ** Dashboard and proxy together *)

(** X21: The dashboard reads the body of the proxy's answer whatever its
    status: each error answer of the proxy ends as one error toast with
    the proxy's own [info] text, and nothing is stored. *)
Theorem proxy_error_reaches_toast (rev : revision) (query : option param)
    (key : option string) (r : fetch_result) (now : Z) (q : string)
    (wr : storage_write) (s : state) :
  let resp := respond (handler query key) r in
  status resp <> 200 ->
  exists text,
    (e <- prop (Some (body resp)) "error" ;; prop e "info") = Normal (Some (JStr text)) /\
    fetchWeather_resume rev now q (Parsed (body resp)) wr s
    = setLoading false (addToast now (JStr text) error s).
Proof.
  unfold handler.
  destruct (param_truthy query); cbn [negb];
    [destruct key as [k|]; [destruct (Js.nonempty k)|]; cbn [negb]; [destruct r| |]|];
    cbn [respond status body]; intros H; try congruence;
    eexists; split; reflexivity.
Qed.

Lemma proxy_error_reaches_toast_witness :
  exists text,
    text = "API key not configured on server." /\
    fetchWeather_resume Rev2 1000 "Paris"
      (Parsed (body (respond (handler (Some (One "Paris")) None) (Parsed JNull))))
      WriteOk sample_state
    = setLoading false (addToast 1000 (JStr text) error sample_state).
Proof.
  destruct (proxy_error_reaches_toast Rev2 (Some (One "Paris")) None (Parsed JNull)
              1000 "Paris" WriteOk sample_state) as (text & Hi & Hr); [discriminate|].
  exists text. split; [|exact Hr].
  cbn in Hi. injection Hi as <-. reflexivity.
Defined.

(** X22: A request of the dashboard never gets the proxy's 400: a query that
    passes the test of [fetchWeather] is not empty. *)
Theorem dashboard_query_passes_proxy (q : string) (key : option string)
    (r : fetch_result) :
  Js.trim q <> EmptyString ->
  status (respond (handler (Some (One q)) key) r) <> 400.
Proof.
  intros Hq.
  assert (Hne : Js.nonempty q = true).
  { destruct q; [exfalso; apply Hq; reflexivity | reflexivity]. }
  unfold handler. cbn [param_truthy]. rewrite Hne. cbn [negb].
  destruct key as [k|]; [destruct (Js.nonempty k)|]; cbn [negb];
    [destruct r| |]; cbn; discriminate.
Qed.

Lemma dashboard_query_passes_proxy_witness :
  status (respond (handler (Some (One " Oslo ")) None) (Parsed JNull)) <> 400.
Proof.
  apply (dashboard_query_passes_proxy " Oslo " None (Parsed JNull)).
  vm_compute. congruence.
Defined.

(** ** Rendering *)

(** Before any payload has arrived a render succeeds, with the empty
    description, the cloud icon and (in the first revision) the fixed
    slate gradient. *)
Lemma derived_without_payload (rev : revision) :
  derived rev None
  = Normal {| description := JStr EmptyString;
              gradient := match rev with
                          | Rev1 => Some "from-slate-700 via-gray-700 to-slate-900"
                          | Rev2 => None
                          end;
              WeatherIcon := Cloud |}.
Proof. destruct rev; reflexivity. Qed.

(** X23: A body is stored without a look at its shape; if it has no [current]
    object, the next render throws a [TypeError]. *)
Theorem payload_without_current_breaks_render (rev : revision) (now : Z)
    (q : string) (data : json) (wr : storage_write) (s : state) :
  accepted (Parsed data) = Some data ->
  prop (Some data) "current" = Normal None \/
  prop (Some data) "current" = Normal (Some JNull) ->
  let s' := fetchWeather_resume rev now q (Parsed data) wr s in
  weather s' = Some data /\
  exists e, derived rev (weather s') = Throw e /\ is_TypeError e = true.
Proof.
  intros Ha Hc. cbv zeta.
  pose proof (fetchWeather_resume_effect rev now q (Parsed data) wr s) as H.
  cbv zeta in H. rewrite Ha in H.
  assert (Hw : weather (fetchWeather_resume rev now q (Parsed data) wr s) = Some data)
    by (destruct wr; apply H).
  clear H.
  split; [exact Hw|]. rewrite Hw. clear Hw. unfold derived.
  assert (Hn : data <> JNull) by (intros ->; discriminate Ha).
  destruct Hc as [Hc | Hc]; destruct data; try congruence;
    rewrite Hc; cbn [bind prop]; eexists; split; reflexivity.
Qed.

Lemma payload_without_current_breaks_render_witness :
  let s' := fetchWeather_resume Rev2 1000 "Oslo" (Parsed (JObj [])) WriteOk sample_state in
  weather s' = Some (JObj []) /\
  exists e, derived Rev2 (weather s') = Throw e /\ is_TypeError e = true.
Proof.
  apply (payload_without_current_breaks_render Rev2 1000 "Oslo" (JObj []) WriteOk
           sample_state);
    [reflexivity | left; reflexivity].
Defined.

(** X24: For a payload with a [current] object whose [weather_descriptions]
    starts with a string, a render takes that string as the description,
    and it is day exactly when [is_day] is the string "yes". *)
Theorem derived_of_payload (rev : revision) (data : json)
    (current : list (string * json)) (d : string) (rest : list json) :
  prop (Some data) "current" = Normal (Some (JObj current)) ->
  field "weather_descriptions" current = Some (JArr (JStr d :: rest)) ->
  derived rev (Some data)
  = Normal {| description := JStr d;
              gradient := match rev with
                          | Rev1 =>
                              Some (getBackgroundGradient d
                                      (match field "is_day" current with
                                       | Some (JStr v) => String.eqb v "yes"
                                       | _ => false
                                       end))
                          | Rev2 => None
                          end;
              WeatherIcon := getWeatherIcon d |}.
Proof.
  intros Hc Hd. unfold derived.
  destruct data as [| | | | |fields]; try discriminate Hc.
  rewrite Hc. cbn [bind prop]. rewrite Hd. destruct rev; reflexivity.
Qed.

Lemma derived_of_payload_witness :
  derived Rev1 (Some sample_payload)
  = Normal {| description := JStr "Light Snow";
              gradient := Some "from-indigo-300 via-blue-200 to-slate-300";
              WeatherIcon := CloudSnow |}.
Proof.
  apply (derived_of_payload Rev1 sample_payload
           [("weather_descriptions", JArr [JStr "Light Snow"]); ("is_day", JStr "yes")]
           "Light Snow" []); reflexivity.
Defined.

(** ** The two revisions compared *)


(** X26: What a search that reaches the success branch does to the toast
    queue.  When the write goes through: nothing in the second revision;
    in the first, on a page served over HTTPS, it leaves the mixed-content
    warning added when the search began.  When the write throws, the toast
    of the catch block comes on top of that. *)
Theorem successful_search_toasts (rev : revision) (env : browser) (now now' : Z)
    (q : string) (data : json) (wr : storage_write) (s : state) :
  Js.trim q <> EmptyString ->
  accepted (Parsed data) = Some data ->
  let s1 := fst (fetchWeather_begin rev env now q s) in
  let begun :=
    match rev with
    | Rev1 =>
        if String.eqb (protocol env) "https:"
        then toasts s ++ [ {| id := now; message := mixed_content_warning;
                              type := warning |} ]
        else toasts s
    | Rev2 => toasts s
    end in
  toasts (fetchWeather_resume rev now' q (Parsed data) wr s1)
  = match wr with
    | WriteOk => begun
    | WriteThrows e =>
        begun ++ [ {| id := now'; message := catch_message rev e; type := error |} ]
    end.
Proof.
  intros Hq Ha. cbv zeta.
  pose proof (fetchWeather_resume_effect rev now' q (Parsed data) wr
                (fst (fetchWeather_begin rev env now q s))) as H.
  cbv zeta in H. rewrite Ha in H.
  assert (Hb : toasts (fst (fetchWeather_begin rev env now q s))
               = match rev with
                 | Rev1 =>
                     if String.eqb (protocol env) "https:"
                     then toasts s ++ [ {| id := now; message := mixed_content_warning;
                                           type := warning |} ]
                     else toasts s
                 | Rev2 => toasts s
                 end).
  { apply nonempty_spec in Hq. unfold fetchWeather_begin. rewrite Hq. cbn [negb fst].
    destruct rev; [destruct (String.eqb _ _)|]; reflexivity. }
  destruct wr; destruct H as (_ & _ & ->); rewrite Hb; reflexivity.
Qed.

Lemma successful_search_toasts_witness :
  toasts (fetchWeather_resume Rev1 1200 "Oslo" (Parsed sample_payload) WriteOk
            (fst (fetchWeather_begin Rev1 sample_browser 1000 "Oslo" sample_state)))
  = [ {| id := 1000; message := mixed_content_warning; type := warning |} ].
Proof.
  apply (successful_search_toasts Rev1 sample_browser 1000 1200 "Oslo"
           sample_payload WriteOk sample_state); [vm_compute; congruence | reflexivity].
Defined.
